(** * Document-to-searchable-record pipeline: chunker, metadata extractor,
      record builder and upsert loop

    Shallow embedding of
      - [make_kb_jsonl_atribuicao.py]            (chunker with newline look-ahead,
                                                  metadata heuristics),
      - [make_kb_jsonl_atribuicao_1712_1815.py]  (earlier chunker, no look-ahead),
      - [ingest_embeddings_azure_search_atribuicao.py] (build_docs, main loop).

    Python values are modelled as follows.
      - [str]    : list of code points ([Z], 0 .. 0x10FFFF), type [pystr];
      - [bytes]  : list of [Z] in 0 .. 255;
      - [int]    : [Z];
      - a dict loaded from JSON : association list from keys to [json] values,
        read with [get] (first binding wins, which is what [dict.get] returns
        for the dict holding those bindings);
      - raising an exception : the [Raise] constructor of [result]. *)

From Stdlib Require Import String Ascii DecimalString ZArith List Lia ZifyBool Bool.

#[local] Set Warnings "-register-all".
Import ListNotations.
Open Scope Z_scope.

(* ===================================================================== *)
(** ** Python strings and bytes *)
(* ===================================================================== *)

Definition pystr := list Z.
Definition pybytes := list Z.

Definition len {A} (l : list A) : Z := Z.of_nat (length l).

Definition bytes_of_string (s : string) : pybytes :=
  map (fun a => Z.of_N (N_of_ascii a)) (list_ascii_of_string s).

(** *** UTF-8, as [str.encode('utf-8')] and [bytes.decode('utf-8')] *)

(* U+D800 .. U+DFFF *)
Definition is_surrogate (c : Z) : bool := (55296 <=? c) && (c <=? 57343).

(* A code point that [str] can hold. *)
Definition is_code_point (c : Z) : bool := (0 <=? c) && (c <? 1114112).

(* A code point the utf-8 codec accepts: lone surrogates make
   [str.encode('utf-8')] raise UnicodeEncodeError. *)
Definition is_scalar (c : Z) : bool := is_code_point c && negb (is_surrogate c).

Definition utf8_encode_cp (c : Z) : option pybytes :=
  if c <? 0 then None
  else if c <? 128 then Some [c]
  else if c <? 2048 then Some [192 + c / 64; 128 + c mod 64]
  else if c <? 65536 then
    if is_surrogate c then None
    else Some [224 + c / 4096; 128 + (c / 64) mod 64; 128 + c mod 64]
  else if c <? 1114112 then
    Some [240 + c / 262144; 128 + (c / 4096) mod 64;
          128 + (c / 64) mod 64; 128 + c mod 64]
  else None.

Fixpoint utf8_encode (s : pystr) : option pybytes :=
  match s with
  | [] => Some []
  | c :: r =>
      match utf8_encode_cp c, utf8_encode r with
      | Some bs, Some rs => Some (bs ++ rs)
      | _, _ => None
      end
  end.

Definition is_cont (b : Z) : bool := (128 <=? b) && (b <? 192).

(* Strict decoder: rejects overlong forms, surrogates and values above
   U+10FFFF, as CPython's does. *)
Fixpoint utf8_decode (bs : pybytes) : option pystr :=
  match bs with
  | [] => Some []
  | b0 :: r0 =>
      if (0 <=? b0) && (b0 <? 128) then option_map (cons b0) (utf8_decode r0)
      else if (194 <=? b0) && (b0 <? 224) then
        match r0 with
        | b1 :: r1 =>
            if is_cont b1
            then option_map (cons ((b0 - 192) * 64 + (b1 - 128))) (utf8_decode r1)
            else None
        | _ => None
        end
      else if (224 <=? b0) && (b0 <? 240) then
        match r0 with
        | b1 :: b2 :: r2 =>
            let c := (b0 - 224) * 4096 + (b1 - 128) * 64 + (b2 - 128) in
            if is_cont b1 && is_cont b2 && (2048 <=? c) && negb (is_surrogate c)
            then option_map (cons c) (utf8_decode r2)
            else None
        | _ => None
        end
      else if (240 <=? b0) && (b0 <? 245) then
        match r0 with
        | b1 :: b2 :: b3 :: r3 =>
            let c := (b0 - 240) * 262144 + (b1 - 128) * 4096
                     + (b2 - 128) * 64 + (b3 - 128) in
            if is_cont b1 && is_cont b2 && is_cont b3
               && (65536 <=? c) && (c <? 1114112)
            then option_map (cons c) (utf8_decode r3)
            else None
        | _ => None
        end
      else None
  end.

(** A string literal of the source files (which are utf-8 encoded). *)
Definition lit (s : string) : pystr :=
  match utf8_decode (bytes_of_string s) with
  | Some l => l
  | None => []
  end.

(** *** Whitespace, [strip], slices, [find], [in] *)

(* [str.isspace] for one character (CPython's _PyUnicode_IsWhitespace). *)
Definition is_space (c : Z) : bool :=
  ((9 <=? c) && (c <=? 13)) || ((28 <=? c) && (c <=? 32))
  || (c =? 133) || (c =? 160) || (c =? 5760)
  || ((8192 <=? c) && (c <=? 8202))
  || (c =? 8232) || (c =? 8233) || (c =? 8239) || (c =? 8287) || (c =? 12288).

Fixpoint lstrip (s : pystr) : pystr :=
  match s with
  | [] => []
  | c :: r => if is_space c then lstrip r else s
  end.

Definition rstrip (s : pystr) : pystr := rev (lstrip (rev s)).

(* [s.strip()] *)
Definition strip (s : pystr) : pystr := rstrip (lstrip s).

(* [s[i:j]] for [0 <= i] and [0 <= j] (the only slices the code takes). *)
Definition slice {A} (s : list A) (i j : Z) : list A :=
  firstn (Z.to_nat (j - i)) (skipn (Z.to_nat i) s).

Fixpoint find_aux (c : Z) (s : pystr) (idx : Z) : Z :=
  match s with
  | [] => -1
  | x :: r => if x =? c then idx else find_aux c r (idx + 1)
  end.

(* [s.find(chr(c), start)] for [0 <= start]. *)
Definition find (s : pystr) (c : Z) (start : Z) : Z :=
  find_aux c (skipn (Z.to_nat start) s) start.

Fixpoint starts_with (s prefix : pystr) : bool :=
  match prefix, s with
  | [], _ => true
  | p :: pr, c :: r => (c =? p) && starts_with r pr
  | _ :: _, [] => false
  end.

(* [sub in s] *)
Fixpoint contains (sub s : pystr) : bool :=
  starts_with s sub ||
  match s with
  | [] => false
  | _ :: r => contains sub r
  end.

Definition nonempty {A} (l : list A) : bool :=
  match l with [] => false | _ => true end.

Definition NL : Z := 10.

(* ===================================================================== *)
(** ** Chunker: [chunk_text] *)
(* ===================================================================== *)

(** The two versions of [chunk_text] differ only in how the right edge [j]
    of the window is chosen; the loop around it is the same text. *)

(* make_kb_jsonl_atribuicao.py, lines 118-123: naive edge, then look-ahead
   for a newline less than 150 characters further. *)
Definition window_end (text : pystr) (N target_chars i : Z) : Z :=
  let j := Z.min N (i + target_chars) in
  if j <? N then
    let next_newline := find text NL j in
    if negb (next_newline =? -1) && (next_newline - j <? 150)
    then next_newline + 1
    else j
  else j.

(* make_kb_jsonl_atribuicao_1712_1815.py, line 89. *)
Definition window_end_1712_1815 (text : pystr) (N target_chars i : Z) : Z :=
  Z.min N (i + target_chars).

(* [i = j - overlap if overlap > 0 else j; if i < 0: i = 0] *)
Definition next_cursor (overlap j : Z) : Z :=
  let i := if overlap >? 0 then j - overlap else j in
  if i <? 0 then 0 else i.

Section ChunkLoop.

Variable wend : pystr -> Z -> Z -> Z -> Z.

(* [while i < N: ...]; [None] when the iteration budget runs out. *)
Fixpoint chunk_loop (fuel : nat) (text : pystr) (N target_chars overlap i : Z)
         (chunks : list pystr) : option (list pystr) :=
  match fuel with
  | O => None
  | S fuel' =>
      if i <? N then
        let j := wend text N target_chars i in
        let chunk := slice text i j in
        let chunks := chunks ++ [strip chunk] in
        if j >=? N then Some chunks
        else chunk_loop fuel' text N target_chars overlap
                        (next_cursor overlap j) chunks
      else Some chunks
  end.

(* The windows [(i, j)] the loop goes through, in order. *)
Fixpoint windows (fuel : nat) (text : pystr) (N target_chars overlap i : Z)
  : list (Z * Z) :=
  match fuel with
  | O => []
  | S fuel' =>
      if i <? N then
        let j := wend text N target_chars i in
        (i, j) :: (if j >=? N then []
                   else windows fuel' text N target_chars overlap
                                (next_cursor overlap j))
      else []
  end.

(* The next cursor is a function of the current one, so a run that ends
   never sees the same cursor twice: it takes at most [len text]
   iterations, and a run that needs more never ends. *)
Definition chunk_text_with (text : pystr) (target_chars overlap : Z)
  : option (list pystr) :=
  let text := strip text in
  if negb (nonempty text) then Some []
  else
    let N := len text in
    if target_chars <=? 0 then Some [text]
    else
      let overlap := if overlap <? 0 then 0 else overlap in
      match chunk_loop (S (length text)) text N target_chars overlap 0 [] with
      | Some chunks => Some (filter nonempty chunks)
      | None => None
      end.

End ChunkLoop.

Definition chunk_text := chunk_text_with window_end.
Definition chunk_text_1712_1815 := chunk_text_with window_end_1712_1815.


(** *** Vocabulary for the chunker's properties *)

(* The characters of the window [w]: [text[i:j]]. *)
Definition window_text (text : pystr) (w : Z * Z) : pystr :=
  slice text (fst w) (snd w).

(* The chunk emitted for the window [w]: [text[i:j].strip()]. *)
Definition cut (text : pystr) (w : Z * Z) : pystr :=
  strip (window_text text w).

(* The windows of a whole run of [chunk_text], as offsets into the stripped
   text (for a text that is not blank and a positive target size). *)
Definition chunk_windows_with (wend : pystr -> Z -> Z -> Z -> Z)
           (text : pystr) (target_chars overlap : Z) : list (Z * Z) :=
  let text := strip text in
  let overlap := if overlap <? 0 then 0 else overlap in
  windows wend (S (length text)) text (len text) target_chars overlap 0.

Definition chunk_windows := chunk_windows_with window_end.
Definition chunk_windows_1712_1815 := chunk_windows_with window_end_1712_1815.

(* A run of windows over a text of length [N], starting with the cursor at
   [i]: every window but the last is at least [target] long and stops
   before [N]; the last one stops at [N]; the next cursor is [next_cursor]. *)
Inductive chain (N target overlap slack : Z) : Z -> list (Z * Z) -> Prop :=
| chain_last i :
    0 <= i < N -> N <= i + target + slack ->
    chain N target overlap slack i [(i, N)]
| chain_next i j ws :
    0 <= i -> i + target <= j -> j <= i + target + slack -> j < N ->
    chain N target overlap slack (next_cursor overlap j) ws ->
    chain N target overlap slack i ((i, j) :: ws).

(* Windows put back together: the first window whole, every later one
   without the characters it shares with what came before. *)
Fixpoint stitch (text : pystr) (prev_end : Z) (ws : list (Z * Z)) : pystr :=
  match ws with
  | [] => []
  | (i, j) :: r =>
      skipn (Z.to_nat (prev_end - i)) (slice text i j) ++ stitch text j r
  end.

(* [s[-n:]] for [n > 0]. *)
Definition last_n {A} (n : Z) (s : list A) : list A :=
  skipn (length s - Z.to_nat n) s.

(* [s[:n]] for [n >= 0]. *)
Definition first_n {A} (n : Z) (s : list A) : list A := firstn (Z.to_nat n) s.

(* Every character of [text] that is not whitespace lies, at its position
   [p], inside one of the chunks, each such chunk being a substring
   [text = l ++ ch ++ r] of the text. *)
Definition covers (text : pystr) (chunks : list pystr) : Prop :=
  forall (p : nat) (c : Z),
    nth_error text p = Some c -> is_space c = false ->
    exists (ch l r : pystr),
      In ch chunks /\ text = l ++ ch ++ r
      /\ (length l <= p < length l + length ch)%nat.

(* Chunk bound as the specification words it. *)
Definition all_but_last_within (chunks : list pystr) (target : Z) : Prop :=
  forall (k : nat) (c : pystr),
    nth_error chunks k = Some c -> (S k < length chunks)%nat -> len c <= target.

(* Overlap between consecutive items, as the specification words it. *)
Definition consecutive_overlap (items : list pystr) (overlap : Z) : Prop :=
  forall (k : nat) (c1 c2 : pystr),
    nth_error items k = Some c1 -> nth_error items (S k) = Some c2 ->
    last_n overlap c1 = first_n overlap c2.

(* ===================================================================== *)
(** ** Exceptions *)
(* ===================================================================== *)

Inductive exn : Type :=
| UnicodeEncodeError
| UnicodeDecodeError
| ValueError
| TypeError
| OverflowError
| RuntimeError (msg : string).

Inductive result (A : Type) : Type :=
| Ok (a : A)
| Raise (e : exn).
Arguments Ok {A} a.
Arguments Raise {A} e.

Definition bind {A B} (r : result A) (f : A -> result B) : result B :=
  match r with
  | Ok a => f a
  | Raise e => Raise e
  end.

Notation "x <- r ;; k" := (bind r (fun x => k))
  (at level 61, r at next level, right associativity).

(* ===================================================================== *)
(** ** Identifier encoding (build_docs, line 216) *)
(* ===================================================================== *)

(** *** [base64.urlsafe_b64encode] *)

(* The URL-safe alphabet: A-Z, a-z, 0-9, '-', '_'. *)
Definition b64_urlsafe_char (n : Z) : Z :=
  if n <? 26 then 65 + n
  else if n <? 52 then 97 + (n - 26)
  else if n <? 62 then 48 + (n - 52)
  else if n =? 62 then 45
  else 95.

(* '=' *)
Definition PAD : Z := 61.

Fixpoint urlsafe_b64encode (bs : pybytes) : pybytes :=
  match bs with
  | [] => []
  | [a] =>
      [b64_urlsafe_char (a / 4); b64_urlsafe_char ((a mod 4) * 16); PAD; PAD]
  | [a; b] =>
      [b64_urlsafe_char (a / 4); b64_urlsafe_char ((a mod 4) * 16 + b / 16);
       b64_urlsafe_char ((b mod 16) * 4); PAD]
  | a :: b :: c :: r =>
      b64_urlsafe_char (a / 4) :: b64_urlsafe_char ((a mod 4) * 16 + b / 16)
      :: b64_urlsafe_char ((b mod 16) * 4 + c / 64) :: b64_urlsafe_char (c mod 64)
      :: urlsafe_b64encode r
  end.

(* [bs.decode('ascii')] *)
Definition decode_ascii (bs : pybytes) : result pystr :=
  if forallb (fun b => (0 <=? b) && (b <? 128)) bs then Ok bs
  else Raise UnicodeDecodeError.

(* [s.encode('utf-8')] *)
Definition encode_utf8 (s : pystr) : result pybytes :=
  match utf8_encode s with
  | Some bs => Ok bs
  | None => Raise UnicodeEncodeError
  end.

Fixpoint lstrip_chars (chars s : pystr) : pystr :=
  match s with
  | [] => []
  | c :: r => if existsb (Z.eqb c) chars then lstrip_chars chars r else s
  end.

(* [s.rstrip(chars)] *)
Definition rstrip_chars (chars s : pystr) : pystr :=
  rev (lstrip_chars chars (rev s)).

(* [base64.urlsafe_b64encode(raw_id.encode('utf-8')).decode('ascii').rstrip("=")] *)
Definition encode_id (raw_id : pystr) : result pystr :=
  bs <- encode_utf8 raw_id ;;
  s <- decode_ascii (urlsafe_b64encode bs) ;;
  Ok (rstrip_chars [PAD] s).

(** *** Decoding an id *)

Definition b64_urlsafe_val (c : Z) : option Z :=
  if (65 <=? c) && (c <=? 90) then Some (c - 65)
  else if (97 <=? c) && (c <=? 122) then Some (c - 97 + 26)
  else if (48 <=? c) && (c <=? 57) then Some (c - 48 + 52)
  else if c =? 45 then Some 62
  else if c =? 95 then Some 63
  else None.

(* Base64 decoding of a padded text, four characters at a time. *)
Fixpoint urlsafe_b64decode (s : pystr) : option pybytes :=
  match s with
  | [] => Some []
  | c0 :: c1 :: c2 :: c3 :: r =>
      match b64_urlsafe_val c0, b64_urlsafe_val c1 with
      | Some v0, Some v1 =>
          if (c2 =? PAD) && (c3 =? PAD) then
            match r with
            | [] => Some [v0 * 4 + v1 / 16]
            | _ => None
            end
          else
            match b64_urlsafe_val c2 with
            | Some v2 =>
                if c3 =? PAD then
                  match r with
                  | [] => Some [v0 * 4 + v1 / 16; (v1 mod 16) * 16 + v2 / 4]
                  | _ => None
                  end
                else
                  match b64_urlsafe_val c3, urlsafe_b64decode r with
                  | Some v3, Some rest =>
                      Some (v0 * 4 + v1 / 16 :: (v1 mod 16) * 16 + v2 / 4
                            :: (v2 mod 4) * 64 + v3 :: rest)
                  | _, _ => None
                  end
            | None => None
            end
      | _, _ => None
      end
  | _ => None
  end.

(** Modelled from the spec: the decoder of an [id], which the repository
    does not contain.  "Decoding the resulting id (re-adding padding and
    base64-decoding) recovers id_original": pad the id with '=' to a
    multiple of four characters, base64-decode it with the URL-safe
    alphabet, and decode the bytes as utf-8. *)
Definition decode_id (sid : pystr) : option pystr :=
  let padded := sid ++ repeat PAD (Z.to_nat ((- len sid) mod 4)) in
  match urlsafe_b64decode padded with
  | Some bs => utf8_decode bs
  | None => None
  end.

(** *** Vocabulary for the codec's properties *)

Definition is_byte (b : Z) : bool := (0 <=? b) && (b <? 256).

(* A character of the encoder's output other than the padding. *)
Definition is_b64_char (c : Z) : bool :=
  (0 <=? c) && (c <? 128) && negb (c =? PAD).

(* ===================================================================== *)
(** ** Values loaded from JSON *)
(* ===================================================================== *)

(* A Python float: a finite binary value [m * 2^e], an infinity or NaN. *)
Inductive pyfloat : Type :=
| Finite (m e : Z)
| Infinity (negative : bool)
| NaN.

(* What [json.loads] returns; [JNull] is Python's [None]. *)
Inductive json : Type :=
| JNull
| JBool (b : bool)
| JInt (n : Z)
| JFloat (f : pyfloat)
| JStr (s : pystr)
| JList (l : list json)
| JDict (kv : list (pystr * json)).

Definition pydict := list (pystr * json).

(* An embedding as the provider's response holds it: a list of numbers. *)
Definition vec := list json.

Fixpoint str_eqb (a b : pystr) : bool :=
  match a, b with
  | [], [] => true
  | x :: a', y :: b' => (x =? y) && str_eqb a' b'
  | _, _ => false
  end.

Fixpoint lookup (d : pydict) (k : pystr) : option json :=
  match d with
  | [] => None
  | (k', v) :: r => if str_eqb k' k then Some v else lookup r k
  end.

(* [d.get(k)] *)
Definition get (d : pydict) (k : pystr) : json :=
  match lookup d k with
  | Some v => v
  | None => JNull
  end.

(* [d.get(k, default)] *)
Definition get_or (d : pydict) (k : pystr) (default : json) : json :=
  match lookup d k with
  | Some v => v
  | None => default
  end.

(* [del d[k]] for a key that is present *)
Definition del (d : pydict) (k : pystr) : pydict :=
  filter (fun kv => negb (str_eqb (fst kv) k)) d.

(* Truth value of an object, as [or], [if] and [not] test it. *)
Definition truthy (v : json) : bool :=
  match v with
  | JNull => false
  | JBool b => b
  | JInt n => negb (n =? 0)
  | JFloat (Finite m _) => negb (m =? 0)
  | JFloat _ => true
  | JStr s => nonempty s
  | JList l => nonempty l
  | JDict kv => nonempty kv
  end.

(* [a or b] *)
Definition py_or (a b : json) : json := if truthy a then a else b.

Definition str_of_Z (n : Z) : pystr :=
  bytes_of_string (DecimalString.NilZero.string_of_int (Z.to_int n)).

(** Library functions the model leaves open: the characters they work on
    (all of Unicode) and the regular-expression engine are outside the
    repository. *)
Inductive regex : Type :=
| YEAR_RE          (* \b(20[2-4]\d)\b *)
| DATE_BR_RE       (* \b([0-3]?\d)[/.-]([01]?\d)[/.-](20[2-4]\d)\b *)
| PRAZO_RE         (* de\s+([0-3]?\d/[01]?\d)(?:/(\d{4}))?\s+a\s+
                      ([0-3]?\d/[01]?\d)(?:/(\d{4}))?           re.I *)
| FASE_RE          (* fase\s*(\d+) *)
| DATA_EXTENSO_RE  (* (\d{1,2})\s+de\s+([a-zç]+)\s+de\s+(20\d{2})  re.I *)
| RESOLUCAO_RE     (* (Resolu\w+.*?)\b(\d{1,4})\/(20[1-4]\d)       re.I *)
| PORTARIA_RE      (* (Portaria.*?)\b(\d{1,4})\/(20[1-4]\d)        re.I *)
| LEI_COMPL_RE.    (* (Lei Complementar.*?)\b(\d{1,4})\/(20\d{2}|19\d{2}) re.I *)

(* A match object: group 0, group 1, ...; [None] for a group that did not
   take part in the match. *)
Definition rmatch := list (option pystr).

Class Builtins : Type := {
  (* [str(v)] for a float, a list or a dict *)
  repr_of : json -> pystr;
  (* [int(s)] for a string *)
  int_of_str : pystr -> result Z;
  (* [datetime.fromisoformat(s).astimezone(timezone.utc).isoformat()];
     [None] when it raises *)
  fromisoformat_utc : pystr -> option pystr;
  (* [s.lower()], [s.upper()] *)
  str_lower : pystr -> pystr;
  str_upper : pystr -> pystr;
  (* [re.finditer(pattern, s)]: the matches from left to right *)
  re_finditer : regex -> pystr -> list rmatch
}.

Section PythonBuiltins.

Context {PB : Builtins}.

(* [str(v)] *)
Definition py_str (v : json) : pystr :=
  match v with
  | JStr s => s
  | JNull => lit "None"
  | JBool true => lit "True"
  | JBool false => lit "False"
  | JInt n => str_of_Z n
  | _ => repr_of v
  end.

(* [int(f)] for a float: truncation toward zero. *)
Definition int_of_float (f : pyfloat) : result Z :=
  match f with
  | Finite m e => if 0 <=? e then Ok (m * 2 ^ e) else Ok (Z.quot m (2 ^ (- e)))
  | Infinity _ => Raise OverflowError
  | NaN => Raise ValueError
  end.

(* [int(v)] *)
Definition py_int (v : json) : result Z :=
  match v with
  | JInt n => Ok n
  | JBool b => Ok (if b then 1 else 0)
  | JFloat f => int_of_float f
  | JStr s => int_of_str s
  | _ => Raise TypeError
  end.

(* [list(v)] *)
Definition py_list (v : json) : result (list json) :=
  match v with
  | JList l => Ok l
  | JStr s => Ok (map (fun c => JStr [c]) s)
  | JDict kv => Ok (map (fun p => JStr (fst p)) kv)
  | _ => Raise TypeError
  end.

(* [re.search(pattern, s)] *)
Definition re_search (r : regex) (s : pystr) : option rmatch :=
  hd_error (re_finditer r s).

(* [m.group(k)] *)
Definition group (m : rmatch) (k : nat) : option pystr :=
  match nth_error m k with
  | Some g => g
  | None => None
  end.

(* A group as [re.findall] reports it: the empty string when unmatched. *)
Definition group_str (m : rmatch) (k : nat) : pystr :=
  match group m k with
  | Some s => s
  | None => []
  end.

End PythonBuiltins.

(* ===================================================================== *)
(** ** The outside world: clock, embedding provider, search index *)
(* ===================================================================== *)

Inductive event : Type :=
| EvEmbed (inputs : list pystr)      (* request sent to the embedding provider *)
| EvUpload (payload : list pydict)   (* request sent to the index *)
| EvPrint (msg : string) (args : list Z).

Record world : Type := {
  trace : list event;       (* what has been sent and printed, oldest first *)
  clock_reads : nat;
  embed_calls : nat;
  upload_calls : nat
}.

(* A computation that acts on the world and may raise; the world it leaves
   behind is kept when it raises. *)
Definition prog (A : Type) : Type := world -> world * result A.

Definition ret {A} (a : A) : prog A := fun w => (w, Ok a).

Definition raise {A} (e : exn) : prog A := fun w => (w, Raise e).

Definition lift {A} (r : result A) : prog A := fun w => (w, r).

Definition pbind {A B} (p : prog A) (f : A -> prog B) : prog B :=
  fun w =>
    match p w with
    | (w', Ok a) => f a w'
    | (w', Raise e) => (w', Raise e)
    end.

Notation "x <~ p ;; k" := (pbind p (fun x => k))
  (at level 61, p at next level, right associativity).

(* [for x in xs: body(x)] *)
Fixpoint for_each {A} (xs : list A) (body : A -> prog unit) : prog unit :=
  match xs with
  | [] => ret tt
  | x :: r => _ <~ body x ;; for_each r body
  end.

(* [[f(x) for x in xs]] *)
Fixpoint map_prog {A C} (f : A -> prog C) (xs : list A) : prog (list C) :=
  match xs with
  | [] => ret []
  | x :: r => y <~ f x ;; ys <~ map_prog f r ;; ret (y :: ys)
  end.

Definition print (msg : string) (args : list Z) : prog unit :=
  fun w => ({| trace := trace w ++ [EvPrint msg args];
               clock_reads := clock_reads w;
               embed_calls := embed_calls w;
               upload_calls := upload_calls w |}, Ok tt).

(* What the outside answers.  Each is indexed by the number of earlier
   requests of its kind, so that any run of the services is covered. *)
Class Services : Type := {
  (* [datetime.now(timezone.utc).isoformat()] *)
  utcnow : nat -> pystr;
  (* outcome of [embed_texts_azure]/[embed_texts_openai] on a batch: the
     vectors [d["embedding"]], or the exception raised *)
  embed : nat -> list pystr -> result (list vec);
  (* outcome of the POST in [upload_documents] *)
  index_upload : nat -> list pydict -> result unit
}.

(* [range(start, stop, step)] for [step > 0]. *)
Definition py_range (start stop step : Z) : list Z :=
  if step >? 0
  then map (fun k => start + Z.of_nat k * step)
           (seq 0 (Z.to_nat ((stop - start + step - 1) / step)))
  else [].

(* [d[k] = v] *)
Fixpoint dict_set (d : pydict) (k : pystr) (v : json) : pydict :=
  match d with
  | [] => [(k, v)]
  | (k', v') :: r =>
      if str_eqb k' k then (k', v) :: r else (k', v') :: dict_set r k v
  end.

(* [{**a, **b}] *)
Definition dict_merge (a b : pydict) : pydict :=
  fold_left (fun acc kv => dict_set acc (fst kv) (snd kv)) b a.

(* ===================================================================== *)
(** ** Record builder and upsert loop
       (ingest_embeddings_azure_search_atribuicao.py) *)
(* ===================================================================== *)

Section Ingest.

Context {PB : Builtins} {SV : Services}.

Definition now : prog pystr :=
  fun w => ({| trace := trace w;
               clock_reads := S (clock_reads w);
               embed_calls := embed_calls w;
               upload_calls := upload_calls w |}, Ok (utcnow (clock_reads w))).

Definition make_vecs (texts : list pystr) : prog (list vec) :=
  fun w => ({| trace := trace w ++ [EvEmbed texts];
               clock_reads := clock_reads w;
               embed_calls := S (embed_calls w);
               upload_calls := upload_calls w |}, embed (embed_calls w) texts).

(* [{"@search.action": "mergeOrUpload", **doc}] *)
Definition upload_action (doc : pydict) : pydict :=
  dict_merge [(lit "@search.action", JStr (lit "mergeOrUpload"))] doc.

Definition upload_documents (docs : list pydict) : prog unit :=
  let payload := map upload_action docs in
  fun w => ({| trace := trace w ++ [EvUpload payload];
               clock_reads := clock_reads w;
               embed_calls := embed_calls w;
               upload_calls := S (upload_calls w) |},
            index_upload (upload_calls w) payload).

Definition coerce_dt (dt_str : json) : prog pystr :=
  if negb (truthy dt_str) then now
  else
    match dt_str with
    | JStr s =>
        match fromisoformat_utc s with
        | Some iso => ret iso
        | None => now
        end
    | _ => now   (* fromisoformat raises TypeError, which is caught *)
    end.

(* [coerce_dt(obj.get(k)) if obj.get(k) else None] *)
Definition optional_dt (obj : pydict) (k : pystr) : prog json :=
  if truthy (get obj k)
  then s <~ coerce_dt (get obj k) ;; ret (JStr s)
  else ret JNull.

(* [str(obj.get(k1) or obj.get(k2) or '')] *)
Definition str_field2 (obj : pydict) (k1 k2 : pystr) : pystr :=
  py_str (py_or (get obj k1) (py_or (get obj k2) (JStr []))).

(* [str(obj.get(k) or default)] *)
Definition str_field (obj : pydict) (k : pystr) (default : pystr) : pystr :=
  py_str (py_or (get obj k) (JStr default)).

(* [if doc.get(k) is None: del doc[k]] *)
Definition drop_none (doc : pydict) (k : pystr) : pydict :=
  match get doc k with
  | JNull => del doc k
  | _ => doc
  end.

(* [str(obj.get("id") or obj.get("id_original") or '')] *)
Definition raw_id_of (obj : pydict) : pystr :=
  str_field2 obj (lit "id") (lit "id_original").

(* [int(obj.get("chunk", 0) or 0)] *)
Definition chunk_of (obj : pydict) : result Z :=
  py_int (py_or (get_or obj (lit "chunk") (JInt 0)) (JInt 0)).

(* [list(obj.get("referencias_legais") or [])] *)
Definition referencias_of (obj : pydict) : result (list json) :=
  py_list (py_or (get obj (lit "referencias_legais")) (JList [])).

(* The body of the loop of [build_docs]. *)
Definition build_doc (obj : pydict) (v : vec) : prog pydict :=
  let raw_id := raw_id_of obj in
  sid <~ lift (encode_id raw_id) ;;
  let text := str_field2 obj (lit "text") (lit "content") in
  chunk <~ lift (chunk_of obj) ;;
  data_publicacao <~ optional_dt obj (lit "data_publicacao") ;;
  prazo_inicio <~ optional_dt obj (lit "prazo_inicio") ;;
  prazo_fim <~ optional_dt obj (lit "prazo_fim") ;;
  referencias_legais <~ lift (referencias_of obj) ;;
  updated_at <~ coerce_dt (get obj (lit "updated_at")) ;;
  let doc :=
    [ (lit "id", JStr sid);
      (lit "id_original", JStr (str_field obj (lit "id") []));
      (lit "text", JStr text);
      (lit "content_vector", JList v);
      (lit "chunk", JInt chunk);
      (lit "doc_title", JStr (str_field2 obj (lit "doc_title") (lit "title")));
      (lit "source_file", JStr (str_field2 obj (lit "source_file") (lit "source")));
      (lit "assunto", JStr (str_field obj (lit "assunto") (lit "obras")));
      (lit "area_interesse",
        JStr (str_field obj (lit "area_interesse") (lit "conhecimento")));
      (lit "conhecimento", JStr (str_field obj (lit "conhecimento") []));
      (lit "norma_tipo", JStr (str_field obj (lit "norma_tipo") []));
      (lit "orgao_emissor", JStr (str_field obj (lit "orgao_emissor") []));
      (lit "data_publicacao", data_publicacao);
      (lit "ano_letivo", JStr (str_field obj (lit "ano_letivo") []));
      (lit "fase_processo", JStr (str_field obj (lit "fase_processo") []));
      (lit "programa", JStr (str_field obj (lit "programa") []));
      (lit "publico_alvo", JStr (str_field obj (lit "publico_alvo") []));
      (lit "prazo_inicio", prazo_inicio);
      (lit "prazo_fim", prazo_fim);
      (lit "referencias_legais", JList referencias_legais);
      (lit "updated_at", JStr updated_at) ] in
  ret (fold_left drop_none
         [lit "data_publicacao"; lit "prazo_inicio"; lit "prazo_fim"] doc).

Definition build_docs (objs : list pydict) (vectors : list vec)
  : prog (list pydict) :=
  map_prog (fun ov => build_doc (fst ov) (snd ov)) (combine objs vectors).

Definition DIM_ERROR : exn :=
  RuntimeError "Dimensão de embedding retornada não confere com --emb-dim.".

(* [str(o.get("text") or o.get("content") or '')] *)
Definition input_text (o : pydict) : pystr :=
  str_field2 o (lit "text") (lit "content").

(* The body of the loop of [main], lines 339-348. *)
Definition process_batch (emb_dim : Z) (objs : list pydict) (B total start : Z)
  : prog unit :=
  let slice_objs := slice objs start (start + B) in
  let inputs := map input_text slice_objs in
  vecs <~ make_vecs inputs ;;
  if existsb (fun v => negb (len v =? emb_dim)) vecs then raise DIM_ERROR
  else
    docs <~ build_docs slice_objs vecs ;;
    _ <~ upload_documents docs ;;
    print "[ok] Enviado: {}/{}" [start + len docs; total].

(* [main], lines 334-350. *)
Definition main_loop (emb_dim batch_size : Z) (objs : list pydict) : prog unit :=
  let B := Z.max 1 batch_size in
  let total := len objs in
  _ <~ print "[info] Iniciando indexação: {} registros, batch={}, emb_dim={}"
             [total; B; emb_dim] ;;
  _ <~ for_each (py_range 0 total B) (process_batch emb_dim objs B total) ;;
  print "[done] Ingestão concluída." [].

(** *** Vocabulary for the properties of the builder and the loop *)

(* A record on which no conversion of [build_docs] raises. *)
Definition buildable (obj : pydict) : Prop :=
  (exists sid, encode_id (raw_id_of obj) = Ok sid)
  /\ (exists n, chunk_of obj = Ok n)
  /\ (exists l, referencias_of obj = Ok l).

(* [doc] is what the builder makes of [obj] with some vector, in some
   state of the world. *)
Definition built_from (obj doc : pydict) : Prop :=
  exists v w w', build_doc obj v w = (w', Ok doc).

(* The provider keeps its contract: one vector per input, each of the
   configured dimension. *)
Definition provider_in_contract (emb_dim : Z) : Prop :=
  forall k inputs,
    exists vecs, embed k inputs = Ok vecs
                 /\ length vecs = length inputs
                 /\ Forall (fun v => len v = emb_dim) vecs.

Definition index_accepts : Prop :=
  forall k payload, index_upload k payload = Ok tt.

End Ingest.


(* The batches the loop slices off: [objs[start:start+B]] for every
   [start] of the range. *)
Definition batches {A} (objs : list A) (B : Z) : list (list A) :=
  map (fun start => slice objs start (start + B)) (py_range 0 (len objs) B).

Fixpoint embedded (tr : list event) : list pystr :=
  match tr with
  | [] => []
  | EvEmbed inputs :: r => inputs ++ embedded r
  | _ :: r => embedded r
  end.

Fixpoint uploaded (tr : list event) : list pydict :=
  match tr with
  | [] => []
  | EvUpload payload :: r => payload ++ uploaded r
  | _ :: r => uploaded r
  end.

Definition is_upload (e : event) : bool :=
  match e with EvUpload _ => true | _ => false end.

(* Between [w] and [w'] nothing was sent or printed and no answer of the
   provider or the index was used up; only the clock may have been read. *)
Definition only_clock (w w' : world) : Prop :=
  trace w' = trace w /\ embed_calls w' = embed_calls w
  /\ upload_calls w' = upload_calls w.

Definition world0 : world :=
  {| trace := []; clock_reads := 0; embed_calls := 0; upload_calls := 0 |}.

(* ===================================================================== *)
(** ** Metadata heuristics (make_kb_jsonl_atribuicao.py) *)
(* ===================================================================== *)

(* Order of [str] values: by code points, shorter prefix first. *)
Fixpoint str_ltb (a b : pystr) : bool :=
  match a, b with
  | _, [] => false
  | [], _ :: _ => true
  | x :: a', y :: b' => (x <? y) || ((x =? y) && str_ltb a' b')
  end.

Fixpoint insert_sorted (s : pystr) (l : list pystr) : list pystr :=
  match l with
  | [] => [s]
  | x :: r =>
      if str_eqb s x then l
      else if str_ltb s x then s :: l
      else x :: insert_sorted s r
  end.

(* [sorted(set(l))] *)
Definition sorted_set (l : list pystr) : list pystr :=
  fold_right insert_sorted [] l.

(* [sep.join(l)] *)
Fixpoint join (sep : pystr) (l : list pystr) : pystr :=
  match l with
  | [] => []
  | [x] => x
  | x :: r => x ++ sep ++ join sep r
  end.

(* [s.split(chr(c))] *)
Fixpoint split_on (c : Z) (s : pystr) : list pystr :=
  match s with
  | [] => [[]]
  | x :: r =>
      if x =? c then [] :: split_on c r
      else match split_on c r with
           | [] => [[x]]
           | h :: t => (x :: h) :: t
           end
  end.

(* [f"{n:0{width}d}"] *)
Definition fmt_d (width : nat) (n : Z) : pystr :=
  let digits := str_of_Z (Z.abs n) in
  let sign := if n <? 0 then lit "-" else [] in
  sign ++ repeat 48 (width - length sign - length digits) ++ digits.

Fixpoint all_ok {A} (l : list (result A)) : result (list A) :=
  match l with
  | [] => Ok []
  | r :: t => a <- r ;; rest <- all_ok t ;; Ok (a :: rest)
  end.

(* [max(l)] for a list that is not empty *)
Definition py_max (l : list Z) : Z :=
  match l with
  | [] => 0
  | x :: r => fold_left Z.max r x
  end.

Definition MESES : list (pystr * pystr) :=
  [ (lit "janeiro", lit "01"); (lit "fevereiro", lit "02");
    (lit "março", lit "03"); (lit "abril", lit "04"); (lit "maio", lit "05");
    (lit "junho", lit "06"); (lit "julho", lit "07"); (lit "agosto", lit "08");
    (lit "setembro", lit "09"); (lit "outubro", lit "10");
    (lit "novembro", lit "11"); (lit "dezembro", lit "12") ].

Fixpoint assoc (d : list (pystr * pystr)) (k : pystr) : option pystr :=
  match d with
  | [] => None
  | (k', v) :: r => if str_eqb k' k then Some v else assoc r k
  end.

Section Metadata.

Context {PB : Builtins}.

(* [re.findall] for a pattern with one group *)
Definition findall1 (r : regex) (s : pystr) : list pystr :=
  map (fun m => group_str m 1) (re_finditer r s).

(* [re.findall] for a pattern with three groups *)
Definition findall3 (r : regex) (s : pystr) : list (pystr * pystr * pystr) :=
  map (fun m => (group_str m 1, group_str m 2, group_str m 3)) (re_finditer r s).

Definition infer_conhecimento (file_name : pystr) : pystr :=
  let fn := str_upper (strip file_name) in
  if starts_with fn (lit "AT") then lit "Atribuição de Classes (AC)"
  else if starts_with fn (lit "AC") then lit "Atribuição de Classes (AC)"
  else if starts_with fn (lit "AD") then lit "Avaliação de Desempenho (AD)"
  else if starts_with fn (lit "CP") then lit "Confirmação de Participação (CP)"
  else if starts_with fn (lit "PEI") then lit "Programa Ensino Integral (PEI)"
  else if contains (lit "ATRIBUI") fn then lit "Atribuição de Classes (AC)"
  else if contains (lit "AVALIACA") fn || contains (lit "DESEMPENHO") fn
       then lit "Avaliação de Desempenho (AD)"
  else if contains (lit "CONFIRMACAO") fn && contains (lit "PARTICIPACAO") fn
       then lit "Confirmação de Participação (CP)"
  else if contains (lit "ENSINO INTEGRAL") fn
       then lit "Programa Ensino Integral (PEI)"
  else lit "Geral".

Definition to_iso_date (d m y : pystr) : pystr :=
  match int_of_str d, int_of_str m, int_of_str y with
  | Ok dd, Ok mm, Ok yy => fmt_d 4 yy ++ lit "-" ++ fmt_d 2 mm ++ lit "-" ++ fmt_d 2 dd
  | _, _, _ => []
  end.

Definition guess_norma_tipo (text fname : pystr) : pystr :=
  let s := str_lower (fname ++ [NL] ++ text) in
  if contains (lit "portaria conjunta") s then lit "Portaria Conjunta"
  else if contains (lit "portaria") s then lit "Portaria"
  else if contains (lit "resolução") s || contains (lit "resolucao") s
       then lit "Resolução"
  else if contains (lit "comunicado") s then lit "Comunicado"
  else if contains (lit "informação") s || contains (lit "informacao") s
       then lit "Informação"
  else if contains (lit "decreto") s then lit "Decreto"
  else if contains (lit "lei complementar") s then lit "Lei Complementar"
  else [].

Definition guess_orgao_emissor (text : pystr) : pystr :=
  let s := str_upper text in
  if contains (lit "SUCOR") s && contains (lit "SUPED") s then lit "SUCOR/SUPED"
  else if contains (lit "CGRH") s then lit "CGRH"
  else
    match filter (fun k => contains k s)
                 [lit "DIPES"; lit "SUCOR"; lit "SUPED"; lit "SEDUC"] with
    | k :: _ => k
    | [] => []
    end.

Definition guess_ano_letivo (text fname : pystr) : pystr :=
  match findall1 YEAR_RE fname with
  | y :: _ => y
  | [] =>
      match findall1 YEAR_RE text with
      | y :: ys =>
          match all_ok (map int_of_str (y :: ys)) with
          | Ok ns => str_of_Z (py_max ns)
          | Raise _ => y
          end
      | [] => []
      end
  end.

Definition guess_fase_processo (text fname : pystr) : pystr :=
  let s := fname ++ [NL] ++ text in
  let s_low := str_lower s in
  if contains (lit "conferência de dados") s_low
     || contains (lit "conferencia de dados") s_low
  then lit "Conferência de Dados"
  else if contains (lit "credenciamento") s_low then lit "Credenciamento"
  else if contains (lit "alocação") s_low || contains (lit "alocacao") s_low then
    if contains (lit "inicial") s_low then lit "Alocação Inicial"
    else lit "Alocação"
  else if contains (lit "realocação") s_low || contains (lit "realocacao") s_low
  then lit "Realocação"
  else if contains (lit "transferência") s_low
          || contains (lit "transferencia") s_low then
    if contains (lit "pei") s_low then lit "Transferência PEI"
    else lit "Transferência"
  else if contains (lit "confirmação de participação") s_low
          || contains (lit "confirmacao de participacao") s_low then
    match re_search FASE_RE s_low with
    | Some m => lit "Confirmação de Participação – Fase " ++ group_str m 1
    | None => lit "Confirmação de Participação"
    end
  else if contains (lit "classificação") s_low
          || contains (lit "classificacao") s_low
  then lit "Classificação"
  else if contains (lit "inscrição") s_low || contains (lit "inscricao") s_low
  then lit "Inscrição"
  else if contains (lit "avaliação de desempenho") s_low
          || contains (lit "avaliacao de desempenho") s_low then
    if contains (lit "final") s_low then lit "Avaliação de Desempenho Final"
    else if contains (lit "parcial") s_low
         then lit "Avaliação de Desempenho Parcial"
    else lit "Avaliação de Desempenho"
  else [].

Definition guess_programa (text : pystr) : pystr :=
  let s := str_lower text in
  if contains (lit "programa ensino integral") s || contains (lit " pei ") s
     || contains (lit "no pei") s
  then lit "PEI"
  else if contains (lit "ensino integral") s then lit "PEI"
  else if contains (lit "tempo parcial") s then lit "Tempo Parcial"
  else if contains (lit "eja") s then lit "EJA"
  else if contains (lit "ensino técnico") s || contains (lit "novotec") s
       then lit "Ensino Técnico / Novotec"
  else [].

Definition guess_publico_alvo (text : pystr) : pystr :=
  let s := str_lower text in
  let targets :=
    (if contains (lit "docente") s || contains (lit "professor") s
     then [lit "Docentes"] else [])
    ++ (if contains (lit "diretor") s || contains (lit "gestor") s
           || contains (lit "coordenador") s
        then [lit "Gestores"] else [])
    ++ (if contains (lit "candidato") s || contains (lit "contratado") s
        then [lit "Candidatos/Contratados"] else []) in
  if negb (nonempty targets) then
    if contains (lit "pei") s then lit "PEI" else lit "Geral"
  else join (lit ", ") (sorted_set targets).

(* [ds[0], ds[1]] of the dates found, when there are two *)
Definition prazos_fallback (text : pystr) : pystr * pystr :=
  match findall3 DATE_BR_RE text with
  | (d1, m1, y1) :: (d2, m2, y2) :: _ => (to_iso_date d1 m1 y1, to_iso_date d2 m2 y2)
  | _ => ([], [])
  end.

Definition guess_prazos (text : pystr) : pystr * pystr :=
  match re_search PRAZO_RE text with
  | Some m =>
      let d1 := group_str m 1 in
      let d2 := group_str m 3 in
      (* [y1 or y2], an unmatched group counting as empty *)
      let year_hint :=
        if nonempty (group_str m 2) then group_str m 2 else group_str m 4 in
      let year_hint :=
        if negb (nonempty year_hint)
        then match findall1 YEAR_RE text with y :: _ => y | [] => [] end
        else year_hint in
      match split_on 47 d1, split_on 47 d2 with
      | [d1d; d1m], [d2d; d2m] =>
          let ini := if nonempty year_hint then to_iso_date d1d d1m year_hint else [] in
          let fim := if nonempty year_hint then to_iso_date d2d d2m year_hint else [] in
          (ini, fim)
      | _, _ => prazos_fallback text   (* the unpacking raised; [except: pass] *)
      end
  | None => prazos_fallback text
  end.

Definition guess_data_publicacao (text : pystr) : result pystr :=
  match re_search DATE_BR_RE text with
  | Some m => Ok (to_iso_date (group_str m 1) (group_str m 2) (group_str m 3))
  | None =>
      match re_search DATA_EXTENSO_RE text with
      | Some m_ext =>
          let dia := group_str m_ext 1 in
          let mes_nome := group_str m_ext 2 in
          let ano := group_str m_ext 3 in
          match assoc MESES (str_lower mes_nome) with
          | Some mes_num =>
              d <- int_of_str dia ;;
              Ok (ano ++ lit "-" ++ mes_num ++ lit "-" ++ fmt_d 2 d)
          | None => Ok []
          end
      | None => Ok []
      end
  end.

Definition extract_referencias_legais (text : pystr) : list pystr :=
  let found (r : regex) :=
    filter (fun chunk => (6 <=? len chunk) && (len chunk <=? 140))
           (map (fun m => strip (group_str m 0)) (re_finditer r text)) in
  sorted_set (found RESOLUCAO_RE ++ found PORTARIA_RE ++ found LEI_COMPL_RE).

(** *** "No extraction rule's pattern matches" *)

(* The tests of the rules, extractor by extractor; a text and file name
   match no rule when every one of them is false and the engine finds no
   match of the date, year and citation patterns. *)
Definition rule_tests (text fname : pystr) : list bool :=
  let fn := str_upper (strip fname) in
  let both := str_lower (fname ++ [NL] ++ text) in
  let up := str_upper text in
  let low := str_lower text in
  (* infer_conhecimento *)
  [ starts_with fn (lit "AT"); starts_with fn (lit "AC");
    starts_with fn (lit "AD"); starts_with fn (lit "CP");
    starts_with fn (lit "PEI"); contains (lit "ATRIBUI") fn;
    contains (lit "AVALIACA") fn || contains (lit "DESEMPENHO") fn;
    contains (lit "CONFIRMACAO") fn && contains (lit "PARTICIPACAO") fn;
    contains (lit "ENSINO INTEGRAL") fn ]
  (* guess_norma_tipo *)
  ++ [ contains (lit "portaria conjunta") both; contains (lit "portaria") both;
       contains (lit "resolução") both || contains (lit "resolucao") both;
       contains (lit "comunicado") both;
       contains (lit "informação") both || contains (lit "informacao") both;
       contains (lit "decreto") both; contains (lit "lei complementar") both ]
  (* guess_orgao_emissor *)
  ++ [ contains (lit "SUCOR") up && contains (lit "SUPED") up;
       contains (lit "CGRH") up; contains (lit "DIPES") up;
       contains (lit "SUCOR") up; contains (lit "SUPED") up;
       contains (lit "SEDUC") up ]
  (* guess_fase_processo *)
  ++ [ contains (lit "conferência de dados") both
       || contains (lit "conferencia de dados") both;
       contains (lit "credenciamento") both;
       contains (lit "alocação") both || contains (lit "alocacao") both;
       contains (lit "realocação") both || contains (lit "realocacao") both;
       contains (lit "transferência") both || contains (lit "transferencia") both;
       contains (lit "confirmação de participação") both
       || contains (lit "confirmacao de participacao") both;
       contains (lit "classificação") both || contains (lit "classificacao") both;
       contains (lit "inscrição") both || contains (lit "inscricao") both;
       contains (lit "avaliação de desempenho") both
       || contains (lit "avaliacao de desempenho") both ]
  (* guess_programa *)
  ++ [ contains (lit "programa ensino integral") low || contains (lit " pei ") low
       || contains (lit "no pei") low;
       contains (lit "ensino integral") low; contains (lit "tempo parcial") low;
       contains (lit "eja") low;
       contains (lit "ensino técnico") low || contains (lit "novotec") low ]
  (* guess_publico_alvo *)
  ++ [ contains (lit "docente") low || contains (lit "professor") low;
       contains (lit "diretor") low || contains (lit "gestor") low
       || contains (lit "coordenador") low;
       contains (lit "candidato") low || contains (lit "contratado") low;
       contains (lit "pei") low ].

Definition no_rule_matches (text fname : pystr) : Prop :=
  forallb negb (rule_tests text fname) = true
  /\ re_finditer YEAR_RE fname = [] /\ re_finditer YEAR_RE text = []
  /\ re_finditer DATE_BR_RE text = [] /\ re_finditer PRAZO_RE text = []
  /\ re_finditer DATA_EXTENSO_RE text = []
  /\ re_finditer RESOLUCAO_RE text = [] /\ re_finditer PORTARIA_RE text = []
  /\ re_finditer LEI_COMPL_RE text = [].

End Metadata.

(* ===================================================================== *)
(** ** Stand-ins for the library and the services, used in examples *)
(* ===================================================================== *)

(* Case mapping of the ASCII letters only. *)
Definition ascii_lower (s : pystr) : pystr :=
  map (fun c => if (65 <=? c) && (c <=? 90) then c + 32 else c) s.

Definition ascii_upper (s : pystr) : pystr :=
  map (fun c => if (97 <=? c) && (c <=? 122) then c - 32 else c) s.

Fixpoint digits_value (s : pystr) (acc : Z) : result Z :=
  match s with
  | [] => Ok acc
  | c :: r =>
      if (48 <=? c) && (c <=? 57) then digits_value r (10 * acc + (c - 48))
      else Raise ValueError
  end.

(* [int(s)] for a string of ASCII digits. *)
Definition ascii_int (s : pystr) : result Z :=
  match s with
  | [] => Raise ValueError
  | _ => digits_value s 0
  end.

(* ASCII case mapping, a regular-expression engine that finds nothing and
   a date parser that accepts nothing. *)
Definition example_builtins : Builtins :=
  {| repr_of := fun _ => lit "...";
     int_of_str := ascii_int;
     fromisoformat_utc := fun _ => None;
     str_lower := ascii_lower;
     str_upper := ascii_upper;
     re_finditer := fun _ _ => [] |}.

(* A provider that answers every input with a zero vector of [dim]
   entries, an index that accepts every request, a clock that stands
   still. *)
Definition example_services (dim : nat) : Services :=
  {| utcnow := fun _ => lit "2025-01-01T00:00:00+00:00";
     embed := fun _ inputs => Ok (map (fun _ => repeat (JInt 0) dim) inputs);
     index_upload := fun _ _ => Ok tt |}.

Definition example_record (id_original text : string) : pydict :=
  [ (lit "id_original", JStr (lit id_original)); (lit "text", JStr (lit text));
    (lit "chunk", JInt 1) ].

Definition sample_records : list pydict :=
  [ example_record "docs/AC_2025.pdf#chunk1" "Portaria Conjunta";
    example_record "docs/AC_2025.pdf#chunk2" "de 01/03 a 15/03/2025";
    example_record "docs/AD_2025.pdf#chunk1" "xyz" ].

Definition sample_lines : pystr := lit "abcdef" ++ [NL] ++ lit "xyz".
Definition sample_words : pystr := lit "ab cd ef".

(* ===================================================================== *)
(** ** Vocabulary for the ids and the requests of a run *)
(* ===================================================================== *)

(* The URL-safe base64 alphabet: A-Z, a-z, 0-9, '-' and '_'. *)
Definition is_urlsafe_char (c : Z) : bool :=
  ((65 <=? c) && (c <=? 90)) || ((97 <=? c) && (c <=? 122))
  || ((48 <=? c) && (c <=? 57)) || (c =? 45) || (c =? 95).

(* The document's "id" is the padding-stripped URL-safe base64 encoding
   of [s]: the base64 text of the utf-8 bytes of [s] is that id followed
   by '=' signs only, the id is made of alphabet characters, and the
   decoder gives [s] back. *)
Definition id_encodes (doc : pydict) (s : pystr) : Prop :=
  exists sid bs k,
    get doc (lit "id") = JStr sid
    /\ utf8_encode s = Some bs
    /\ urlsafe_b64encode bs = sid ++ repeat PAD k
    /\ forallb is_urlsafe_char sid = true
    /\ decode_id sid = Some s.

(* The requests sent to the embedding provider, one list of inputs per
   request, oldest first. *)
Fixpoint embed_requests (tr : list event) : list (list pystr) :=
  match tr with
  | [] => []
  | EvEmbed inputs :: r => inputs :: embed_requests r
  | _ :: r => embed_requests r
  end.

(* The requests sent to the index, one payload per request. *)
Fixpoint upload_requests (tr : list event) : list (list pydict) :=
  match tr with
  | [] => []
  | EvUpload payload :: r => payload :: upload_requests r
  | _ :: r => upload_requests r
  end.

(* A record whose id_original is the lone surrogate U+D800, as
   [json.loads] gives for the escape \ud800. *)
Definition surrogate_record : pydict :=
  [ (lit "id_original", JStr [55296]); (lit "text", JStr (lit "t"));
    (lit "chunk", JInt 1) ].

(* A record whose chunk is not a number. *)
Definition unnumbered_record : pydict :=
  [ (lit "id_original", JStr (lit "docs/AC_2025.pdf#chunk2"));
    (lit "text", JStr (lit "t")); (lit "chunk", JStr (lit "um")) ].

(* ===================================================================== *)
(** * Proofs *)
(* ===================================================================== *)

(** *** List and slice facts *)

(* Let [lia] see through division and remainder by constants. *)
Ltac Zify.zify_post_hook ::= Z.to_euclidean_division_equations.

(* Case analysis on every boolean test of the goal. *)
Ltac split_if_on b :=
  lazymatch b with
  | context [if _ then _ else _] => fail
  | _ => destruct b eqn:?
  end.

Ltac split_ifs :=
  repeat match goal with
         | |- context [if ?b then _ else _] => split_if_on b
         | H : context [if ?b then _ else _] |- _ => split_if_on b
         end.

Lemma len_nonneg {A} (l : list A) : 0 <= len l.
Proof. unfold len; lia. Qed.

Lemma len_app {A} (l1 l2 : list A) : len (l1 ++ l2) = len l1 + len l2.
Proof. unfold len; rewrite length_app; lia. Qed.

Lemma lstrip_decomp (s : pystr) :
  exists pre, s = pre ++ lstrip s /\ forallb is_space pre = true.
Proof.
  induction s as [|c r IH]; simpl.
  - exists []; auto.
  - destruct (is_space c) eqn:Hc.
    + destruct IH as (pre & E & F). exists (c :: pre); simpl.
      rewrite Hc, F; split; [f_equal; exact E | reflexivity].
    + exists []; auto.
Qed.

Lemma strip_decomp (s : pystr) :
  exists pre post, s = pre ++ strip s ++ post
                   /\ forallb is_space pre = true /\ forallb is_space post = true.
Proof.
  destruct (lstrip_decomp s) as (pre & E1 & F1).
  destruct (lstrip_decomp (rev (lstrip s))) as (q & E2 & F2).
  exists pre, (rev q); repeat split; auto.
  - unfold strip, rstrip. rewrite E1 at 1. f_equal.
    rewrite <- rev_app_distr, <- E2, rev_involutive; reflexivity.
  - rewrite forallb_forall in *; intros x Hx; apply F2, in_rev; exact Hx.
Qed.

Lemma strip_len (s : pystr) : len (strip s) <= len s.
Proof.
  destruct (strip_decomp s) as (pre & post & E & _).
  rewrite E at 2. rewrite !len_app.
  pose proof (len_nonneg pre); pose proof (len_nonneg post); lia.
Qed.

Lemma slice_len {A} (s : list A) i j : 0 <= i <= j -> len (slice s i j) <= j - i.
Proof.
  intros H; unfold slice, len.
  pose proof (firstn_le_length (Z.to_nat (j - i)) (skipn (Z.to_nat i) s)); lia.
Qed.

Lemma slice_len_exact {A} (s : list A) i j :
  0 <= i <= j -> j <= len s -> len (slice s i j) = j - i.
Proof.
  intros H Hj; unfold slice, len in *.
  rewrite firstn_length_le; [lia|]. rewrite length_skipn; lia.
Qed.

Lemma slice_full {A} (s : list A) : slice s 0 (len s) = s.
Proof.
  unfold slice, len; simpl. rewrite Z.sub_0_r, Nat2Z.id. apply firstn_all.
Qed.

Lemma firstn_plus {A} (m n : nat) (l : list A) :
  firstn (m + n) l = firstn m l ++ firstn n (skipn m l).
Proof.
  revert l; induction m as [|m IH]; intros l; simpl; [reflexivity|].
  destruct l as [|x l]; simpl; [now rewrite firstn_nil | now rewrite IH].
Qed.

Lemma slice_join {A} (s : list A) a b c :
  0 <= a <= b -> b <= c -> slice s a b ++ slice s b c = slice s a c.
Proof.
  intros H1 H2; unfold slice.
  replace (Z.to_nat (c - a)) with (Z.to_nat (b - a) + Z.to_nat (c - b))%nat by lia.
  rewrite firstn_plus. f_equal. rewrite skipn_skipn.
  replace (Z.to_nat (b - a) + Z.to_nat a)%nat with (Z.to_nat b) by lia.
  reflexivity.
Qed.

Lemma slice_skipn {A} (s : list A) i p j :
  0 <= i <= p -> skipn (Z.to_nat (p - i)) (slice s i j) = slice s p j.
Proof.
  intros H; unfold slice. rewrite skipn_firstn_comm, skipn_skipn.
  replace (Z.to_nat (p - i) + Z.to_nat i)%nat with (Z.to_nat p) by lia.
  f_equal. lia.
Qed.

Lemma slice_firstn {A} (s : list A) i p j :
  0 <= i <= p -> p <= j -> firstn (Z.to_nat (p - i)) (slice s i j) = slice s i p.
Proof.
  intros H Hj; unfold slice. rewrite firstn_firstn. f_equal. lia.
Qed.

Lemma find_aux_range c s idx :
  find_aux c s idx = -1 \/ idx <= find_aux c s idx < idx + len s.
Proof.
  revert idx; induction s as [|x r IH]; intros idx; simpl; [left; reflexivity|].
  unfold len in *; simpl length.
  destruct (x =? c); [right; lia|].
  destruct (IH (idx + 1)) as [E|E]; [left; exact E | right; lia].
Qed.

Lemma find_range s c start :
  0 <= start <= len s -> find s c start = -1 \/ start <= find s c start < len s.
Proof.
  intros H; unfold find.
  destruct (find_aux_range c (skipn (Z.to_nat start) s) start) as [E|E];
    [left; exact E | right].
  unfold len in *; rewrite length_skipn in E; lia.
Qed.

(** *** The window rules *)

Lemma next_cursor_spec overlap j :
  0 <= overlap -> 0 <= j ->
  next_cursor overlap j = Z.max 0 (j - overlap).
Proof. intros; unfold next_cursor; split_ifs; lia. Qed.

Lemma window_end_ok text target i :
  0 < target -> 0 <= i < len text ->
  let j := window_end text (len text) target i in
  i < j <= len text /\ (j < len text -> i + target <= j) /\ j <= i + target + 150.
Proof.
  intros Ht Hi; unfold window_end.
  destruct (Z.min (len text) (i + target) <? len text) eqn:E; [|cbv zeta; lia].
  assert (Hm : Z.min (len text) (i + target) = i + target) by lia.
  rewrite Hm in *.
  destruct (find_range text NL (i + target)) as [F|F]; [lia| |].
  - rewrite F; simpl; lia.
  - destruct (negb (find text NL (i + target) =? -1)
              && (find text NL (i + target) - (i + target) <? 150)) eqn:G;
      cbv zeta; lia.
Qed.

Lemma window_end_1712_1815_ok text target i :
  0 < target -> 0 <= i < len text ->
  let j := window_end_1712_1815 text (len text) target i in
  i < j <= len text /\ (j < len text -> i + target <= j) /\ j <= i + target + 0.
Proof. intros Ht Hi; unfold window_end_1712_1815; cbv zeta; lia. Qed.

Section ChunkLoopFacts.

Variable wend : pystr -> Z -> Z -> Z -> Z.
Variable slack : Z.
Hypothesis wend_ok : forall text target i,
  0 < target -> 0 <= i < len text ->
  let j := wend text (len text) target i in
  i < j <= len text /\ (j < len text -> i + target <= j) /\ j <= i + target + slack.

Lemma loop_windows fuel text N target overlap : forall i chunks r,
  chunk_loop wend fuel text N target overlap i chunks = Some r ->
  r = chunks ++ map (cut text) (windows wend fuel text N target overlap i).
Proof.
  induction fuel as [|fuel IH]; intros i chunks r; simpl; [discriminate|].
  destruct (i <? N); [|intros [= <-]; now rewrite app_nil_r].
  destruct (wend text N target i >=? N).
  - intros [= <-]; reflexivity.
  - intros H; apply IH in H; rewrite H, <- app_assoc; reflexivity.
Qed.

Lemma windows_chain fuel text target overlap : forall i,
  0 < target -> 0 <= overlap < target ->
  0 <= i < len text -> len text - i <= Z.of_nat fuel ->
  chain (len text) target overlap slack i
        (windows wend fuel text (len text) target overlap i).
Proof.
  induction fuel as [|fuel IH]; intros i Ht Ho Hi Hf; [lia|].
  simpl. destruct (i <? len text) eqn:E; [|lia].
  pose proof (wend_ok text target i Ht Hi) as W; cbv zeta in W.
  destruct (wend text (len text) target i >=? len text) eqn:G.
  - replace (wend text (len text) target i) with (len text) in * by lia.
    apply chain_last; lia.
  - apply chain_next; try lia.
    pose proof (next_cursor_spec overlap (wend text (len text) target i)).
    apply IH; lia.
Qed.

Lemma loop_total fuel text target overlap : forall i chunks,
  0 < target -> 0 <= overlap < target ->
  0 <= i -> len text - i <= Z.of_nat fuel -> (0 < fuel)%nat ->
  exists r, chunk_loop wend fuel text (len text) target overlap i chunks = Some r.
Proof.
  induction fuel as [|fuel IH]; intros i chunks Ht Ho Hi Hf Hp; [lia|].
  simpl. destruct (i <? len text) eqn:E; [|eauto].
  assert (Hi' : 0 <= i < len text) by lia.
  pose proof (wend_ok text target i Ht Hi') as W; cbv zeta in W.
  destruct (wend text (len text) target i >=? len text) eqn:G; [eauto|].
  pose proof (next_cursor_spec overlap (wend text (len text) target i)).
  apply IH; lia.
Qed.

(* A larger iteration budget does not change a result. *)
Lemma loop_fuel_mono fuel text N target overlap : forall i chunks r fuel',
  chunk_loop wend fuel text N target overlap i chunks = Some r ->
  (fuel <= fuel')%nat ->
  chunk_loop wend fuel' text N target overlap i chunks = Some r.
Proof.
  induction fuel as [|fuel IH]; intros i chunks r fuel'; simpl; [discriminate|].
  intros H Hle. destruct fuel' as [|fuel']; [lia|]. simpl.
  destruct (i <? N); [|exact H].
  destruct (wend text N target i >=? N); [exact H|].
  apply IH; [exact H | lia].
Qed.

Lemma cursor_advances text target overlap i :
  0 < target -> 0 <= overlap < target -> 0 <= i < len text ->
  wend text (len text) target i < len text ->
  i < next_cursor overlap (wend text (len text) target i).
Proof.
  intros Ht Ho Hi Hj.
  pose proof (wend_ok text target i Ht Hi) as W; cbv zeta in W.
  pose proof (next_cursor_spec overlap (wend text (len text) target i)). lia.
Qed.

End ChunkLoopFacts.

(** *** Consequences of the window chain *)

Lemma nth_error_slice {A} (s : list A) (i j : Z) (p : nat) :
  0 <= i -> i <= Z.of_nat p < j ->
  nth_error (slice s i j) (p - Z.to_nat i) = nth_error s p.
Proof.
  intros Hi Hp; unfold slice.
  rewrite nth_error_firstn, nth_error_skipn.
  replace (Z.to_nat i + (p - Z.to_nat i))%nat with p by lia.
  destruct (Nat.ltb_spec (p - Z.to_nat i) (Z.to_nat (j - i))); [reflexivity | lia].
Qed.

Lemma blank_nth (l : pystr) (p : nat) (c : Z) :
  forallb is_space l = true -> nth_error l p = Some c -> is_space c = true.
Proof.
  intros F H; apply nth_error_In in H.
  rewrite forallb_forall in F; auto.
Qed.

(* A character that is not whitespace sits in the middle part when both
   outer parts are blank. *)
Lemma nth_in_middle (pre mid post : pystr) (p : nat) (c : Z) :
  nth_error (pre ++ mid ++ post) p = Some c -> is_space c = false ->
  forallb is_space pre = true -> forallb is_space post = true ->
  (length pre <= p < length pre + length mid)%nat
  /\ nth_error mid (p - length pre) = Some c.
Proof.
  intros H Hc Fpre Fpost.
  rewrite nth_error_app in H.
  destruct (Nat.ltb_spec p (length pre)) as [L|L].
  - rewrite (blank_nth _ _ _ Fpre H) in Hc; discriminate.
  - rewrite nth_error_app in H.
    destruct (Nat.ltb_spec (p - length pre) (length mid)) as [M|M].
    + split; [lia | exact H].
    + rewrite (blank_nth _ _ _ Fpost H) in Hc; discriminate.
Qed.

Section ChainFacts.

Variables (N target overlap slack : Z).
Hypothesis Htarget : 0 < target.
Hypothesis Hoverlap : 0 <= overlap < target.

Lemma chain_windows_in_range i ws :
  chain N target overlap slack i ws ->
  Forall (fun w => 0 <= fst w < snd w /\ snd w <= N
                   /\ snd w - fst w <= target + slack) ws.
Proof.
  induction 1 as [i Hi Hs | i j ws Hi Hj Hs HjN _ IH]; constructor; simpl;
    auto; lia.
Qed.

Lemma chain_stitch text i ws :
  chain N target overlap slack i ws ->
  forall prev, i <= prev -> prev <= N -> prev <= i + target ->
  stitch text prev ws = slice text prev N.
Proof.
  induction 1 as [i Hi Hs | i j ws Hi Hj Hs HjN _ IH]; intros prev P1 P2 P3; simpl.
  - rewrite slice_skipn by lia. apply app_nil_r.
  - rewrite slice_skipn by lia.
    pose proof (next_cursor_spec overlap j).
    rewrite IH by lia. apply slice_join; lia.
Qed.

Lemma chain_cover i ws :
  chain N target overlap slack i ws ->
  forall p, i <= p < N -> exists w, In w ws /\ fst w <= p < snd w.
Proof.
  induction 1 as [i Hi Hs | i j ws Hi Hj Hs HjN _ IH]; intros p Hp.
  - exists (i, N); simpl; split; [left; reflexivity | lia].
  - destruct (Z_lt_ge_dec p j) as [L|G].
    + exists (i, j); simpl; split; [left; reflexivity | lia].
    + pose proof (next_cursor_spec overlap j).
      destruct (IH p) as (w & Hin & Hw); [lia|].
      exists w; split; [right; exact Hin | exact Hw].
Qed.

Lemma chain_head i ws :
  chain N target overlap slack i ws ->
  exists j r, ws = (i, j) :: r /\ 0 <= i /\ j <= N
              /\ (i + target <= j \/ j = N) /\ i < j.
Proof.
  destruct 1 as [i Hi Hs | i j ws Hi Hj Hs HjN _].
  - exists N, []; repeat split; auto; lia.
  - exists j, ws; repeat split; auto; lia.
Qed.

(* Two windows in a row: the second starts [overlap] characters before the
   end of the first, and both hold at least that many characters. *)
Lemma chain_consecutive i ws :
  chain N target overlap slack i ws ->
  forall k w1 w2,
    nth_error ws k = Some w1 -> nth_error ws (S k) = Some w2 ->
    fst w2 = snd w1 - overlap /\ 0 <= fst w1 /\ fst w1 <= snd w1 - overlap
    /\ fst w2 + overlap <= snd w2 /\ snd w2 <= N /\ snd w1 <= N.
Proof.
  induction 1 as [i Hi Hs | i j ws Hi Hj Hs HjN Hc IH]; intros k w1 w2 H1 H2.
  - destruct k; simpl in H2; [discriminate | destruct k; discriminate].
  - destruct k as [|k].
    + simpl in H1, H2. injection H1 as <-.
      destruct (chain_head _ _ Hc) as (j' & r & -> & A & B & C & D).
      simpl in H2; injection H2 as <-. simpl.
      pose proof (next_cursor_spec overlap j). lia.
    + simpl in H1. apply (IH k); [exact H1 | exact H2].
Qed.

End ChainFacts.

Lemma window_overlap (text : pystr) (overlap : Z) (w1 w2 : Z * Z) :
  0 < overlap ->
  fst w2 = snd w1 - overlap -> 0 <= fst w1 -> fst w1 <= snd w1 - overlap ->
  fst w2 + overlap <= snd w2 -> snd w2 <= len text -> snd w1 <= len text ->
  last_n overlap (slice text (fst w1) (snd w1))
  = first_n overlap (slice text (fst w2) (snd w2))
  /\ len (last_n overlap (slice text (fst w1) (snd w1))) = overlap.
Proof.
  destruct w1 as [i1 j1], w2 as [i2 j2]; simpl; intros Ho E H1 H2 H3 H4 H5.
  assert (L : last_n overlap (slice text i1 j1) = slice text (j1 - overlap) j1).
  { unfold last_n.
    assert (SL : len (slice text i1 j1) = j1 - i1) by (apply slice_len_exact; lia).
    unfold len in SL.
    replace (length (slice text i1 j1) - Z.to_nat overlap)%nat
      with (Z.to_nat ((j1 - overlap) - i1)) by lia.
    apply slice_skipn; lia. }
  rewrite L. split; [|rewrite slice_len_exact; lia].
  unfold first_n. subst i2.
  replace (Z.to_nat overlap) with (Z.to_nat (j1 - (j1 - overlap))) by lia.
  rewrite slice_firstn by lia. reflexivity.
Qed.

(** *** Whole runs of [chunk_text] *)

Section ChunkTextFacts.

Variable wend : pystr -> Z -> Z -> Z -> Z.
Variable slack : Z.
Hypothesis wend_ok : forall text target i,
  0 < target -> 0 <= i < len text ->
  let j := wend text (len text) target i in
  i < j <= len text /\ (j < len text -> i + target <= j) /\ j <= i + target + slack.

Lemma chunk_text_with_blank text target overlap :
  strip text = [] ->
  chunk_text_with wend text target overlap = Some []
  /\ chunk_windows_with wend text target overlap = [].
Proof.
  intros E; unfold chunk_text_with, chunk_windows_with; rewrite E; auto.
Qed.

Lemma chunk_text_with_run text target overlap :
  strip text <> [] -> 0 < target -> 0 <= overlap < target ->
  chunk_text_with wend text target overlap
  = Some (filter nonempty
            (map (cut (strip text)) (chunk_windows_with wend text target overlap)))
  /\ chain (len (strip text)) target overlap slack 0
           (chunk_windows_with wend text target overlap).
Proof.
  intros Hne Ht Ho. unfold chunk_text_with, chunk_windows_with.
  set (t := strip text) in *.
  assert (Hlen : 0 < len t).
  { destruct t; [congruence | unfold len; simpl; lia]. }
  assert (Hn : nonempty t = true) by (destruct t; [congruence | reflexivity]).
  rewrite Hn; simpl negb; cbv iota.
  replace (target <=? 0) with false by lia.
  replace (overlap <? 0) with false by lia.
  split.
  - destruct (loop_total wend slack wend_ok (S (length t)) t target overlap 0 [])
      as (r & Hr); try lia; [unfold len; lia|].
    rewrite Hr. apply loop_windows in Hr. rewrite Hr. reflexivity.
  - apply windows_chain; auto; unfold len in *; lia.
Qed.

Lemma chunk_text_with_total text target overlap :
  0 < target -> 0 <= overlap < target ->
  chunk_text_with wend text target overlap
  = Some (filter nonempty
            (map (cut (strip text)) (chunk_windows_with wend text target overlap))).
Proof.
  intros Ht Ho. destruct (strip text) eqn:E.
  - destruct (chunk_text_with_blank text target overlap E) as (-> & ->).
    reflexivity.
  - rewrite <- E. apply chunk_text_with_run; auto. congruence.
Qed.

Lemma chunk_text_with_bound text target overlap :
  0 < target -> 0 <= overlap < target ->
  Forall (fun c => len c <= target + slack)
         (filter nonempty
            (map (cut (strip text)) (chunk_windows_with wend text target overlap))).
Proof.
  intros Ht Ho. apply Forall_forall. intros c Hc.
  apply filter_In in Hc. destruct Hc as (Hc & _).
  apply in_map_iff in Hc. destruct Hc as (w & <- & Hw).
  destruct (strip text) eqn:E.
  - destruct (chunk_text_with_blank text target overlap E) as (_ & W).
    rewrite W in Hw; destruct Hw.
  - rewrite <- E in *.
    destruct (chunk_text_with_run text target overlap) as (_ & C); auto;
      [congruence|].
    pose proof C as R; apply chain_windows_in_range in R; [|lia ..].
    rewrite Forall_forall in R. specialize (R w Hw).
    unfold cut, window_text.
    pose proof (strip_len (slice (strip text) (fst w) (snd w))).
    pose proof (slice_len (strip text) (fst w) (snd w)). lia.
Qed.

Lemma chunk_text_with_stitch text target overlap :
  0 < target -> 0 <= overlap < target ->
  stitch (strip text) 0 (chunk_windows_with wend text target overlap) = strip text.
Proof.
  intros Ht Ho. destruct (strip text) eqn:E.
  - destruct (chunk_text_with_blank text target overlap E) as (_ & ->).
    reflexivity.
  - rewrite <- E in *.
    destruct (chunk_text_with_run text target overlap) as (_ & C); auto;
      [congruence|].
    pose proof (len_nonneg (strip text)).
    erewrite chain_stitch; eauto; try lia. apply slice_full.
Qed.

Lemma chunk_text_with_covers text target overlap :
  0 < target -> 0 <= overlap < target ->
  covers text
         (filter nonempty
            (map (cut (strip text)) (chunk_windows_with wend text target overlap))).
Proof.
  intros Ht Ho p c Hp Hc.
  destruct (strip_decomp text) as (pre & post & E & Fpre & Fpost).
  set (t := strip text) in *.
  rewrite E in Hp.
  destruct (nth_in_middle _ _ _ _ _ Hp Hc Fpre Fpost) as (Hr & Hm).
  assert (Hne : t <> []) by (intros Z0; rewrite Z0 in Hr; simpl in Hr; lia).
  destruct (chunk_text_with_run text target overlap Hne Ht Ho) as (_ & C).
  fold t in C.
  set (q := (p - length pre)%nat) in *.
  assert (Hcov : exists w, In w (chunk_windows_with wend text target overlap)
                           /\ fst w <= Z.of_nat q < snd w).
  { eapply chain_cover; eauto; unfold len; lia. }
  destruct Hcov as (w & Hin & Hw).
  pose proof C as R; apply chain_windows_in_range in R; [|lia ..].
  rewrite Forall_forall in R. specialize (R w Hin).
  destruct w as [i j]; simpl in Hw, R.
  destruct (strip_decomp (slice t i j)) as (pre1 & post1 & E1 & F1 & F2).
  assert (Hs : nth_error (slice t i j) (q - Z.to_nat i) = Some c).
  { rewrite nth_error_slice by lia. exact Hm. }
  rewrite E1 in Hs.
  destruct (nth_in_middle _ _ _ _ _ Hs Hc F1 F2) as (Hr1 & _).
  exists (cut t (i, j)), (pre ++ slice t 0 i ++ pre1),
         (post1 ++ slice t j (len t) ++ post).
  unfold cut, window_text; simpl fst; simpl snd.
  split; [|split].
  - apply filter_In; split.
    + apply in_map_iff. exists (i, j); split; [reflexivity | exact Hin].
    + destruct (strip (slice t i j)); [simpl in Hr1; lia | reflexivity].
  - rewrite E at 1. rewrite <- !app_assoc. f_equal.
    rewrite <- (slice_full t) at 1.
    rewrite <- (slice_join t 0 i (len t)) by lia.
    rewrite <- (slice_join t i j (len t)) by lia.
    rewrite E1 at 1. rewrite <- !app_assoc. reflexivity.
  - rewrite !length_app.
    assert (Li : len (slice t 0 i) = i - 0) by (apply slice_len_exact; lia).
    unfold len in Li. lia.
Qed.

Lemma chunk_text_with_overlap text target overlap :
  0 < overlap < target ->
  consecutive_overlap
    (map (window_text (strip text)) (chunk_windows_with wend text target overlap))
    overlap.
Proof.
  intros Ho k c1 c2 H1 H2.
  rewrite nth_error_map in H1, H2.
  destruct (nth_error _ k) as [w1|] eqn:N1; [|discriminate].
  destruct (nth_error _ (S k)) as [w2|] eqn:N2; [|discriminate].
  injection H1 as <-; injection H2 as <-.
  destruct (strip text) eqn:E.
  - destruct (chunk_text_with_blank text target overlap E) as (_ & W).
    rewrite W in N1; destruct k; discriminate.
  - rewrite <- E in *.
    destruct (chunk_text_with_run text target overlap) as (_ & C); auto;
      [congruence | lia | lia |].
    assert (A : fst w2 = snd w1 - overlap /\ 0 <= fst w1
                /\ fst w1 <= snd w1 - overlap /\ fst w2 + overlap <= snd w2
                /\ snd w2 <= len (strip text) /\ snd w1 <= len (strip text)).
    { eapply chain_consecutive; eauto; lia. }
    destruct A as (A1 & A2 & A3 & A4 & A5 & A6).
    apply window_overlap; auto; lia.
Qed.

End ChunkTextFacts.

(* ===================================================================== *)
(** ** Chunker: the specification's properties *)
(* ===================================================================== *)

Example chunk_text_sample_lines :
  chunk_text sample_lines 3 1 = Some [lit "abcdef"; lit "xy"; lit "yz"].
Proof. reflexivity. Qed.

Example chunk_text_1712_1815_sample_lines :
  chunk_text_1712_1815 sample_lines 3 1
  = Some [lit "abc"; lit "cde"; lit "ef"; lit "xy"; lit "yz"].
Proof. reflexivity. Qed.

Example chunk_text_sample_words :
  chunk_text sample_words 3 1 = Some [lit "ab"; lit "cd"; lit "d e"; lit "ef"].
Proof. reflexivity. Qed.

Example chunk_text_nonpositive_target :
  chunk_text (lit "  abc  ") 0 1 = Some [lit "abc"].
Proof. reflexivity. Qed.

Example chunk_text_blank : chunk_text (lit "   ") 3 1 = Some [].
Proof. reflexivity. Qed.

(* With [overlap >= target_chars] the cursor can stand still: the loop
   leaves no result within its budget. *)
Example chunk_text_stuck : chunk_text (lit "abcdefgh") 3 3 = None.
Proof. reflexivity. Qed.

(** C2, counterexample.  With the newline look-ahead of
    [make_kb_jsonl_atribuicao.py] a chunk that is not the last one can be
    longer than the target size: on "abcdef\nxyz" with target 3 and
    overlap 1 the first chunk is "abcdef". *)
Lemma chunk_bound_fails_with_lookahead :
  ~ (forall text target overlap chunks,
        0 < target -> 0 <= overlap < target ->
        chunk_text text target overlap = Some chunks ->
        all_but_last_within chunks target).
Proof.
  intros H.
  specialize (H sample_lines 3 1 _ ltac:(lia) ltac:(lia) chunk_text_sample_lines
                0%nat (lit "abcdef") eq_refl).
  simpl in H. specialize (H ltac:(lia)). vm_compute in H. apply H; reflexivity.
Qed.

(** C2, amended.  For every text, every target size > 0 and every overlap
    with 0 <= overlap < target size, [chunk_text] returns, and every chunk
    it returns has length <= target size + 150 in the version with the
    newline look-ahead, and length <= target size in the version without
    it ([make_kb_jsonl_atribuicao_1712_1815.py]). *)
Theorem chunk_bound (text : pystr) (target overlap : Z) :
  0 < target -> 0 <= overlap < target ->
  (exists chunks, chunk_text text target overlap = Some chunks
                  /\ Forall (fun c => len c <= target + 150) chunks)
  /\ (exists chunks, chunk_text_1712_1815 text target overlap = Some chunks
                     /\ Forall (fun c => len c <= target) chunks
                     /\ all_but_last_within chunks target).
Proof.
  intros Ht Ho; split.
  - eexists; split.
    + apply (chunk_text_with_total window_end 150 window_end_ok); assumption.
    + apply (chunk_text_with_bound window_end 150 window_end_ok); assumption.
  - assert (B : Forall (fun c => len c <= target)
                  (filter nonempty
                     (map (cut (strip text))
                        (chunk_windows_1712_1815 text target overlap)))).
    { pose proof (chunk_text_with_bound window_end_1712_1815 0
                    window_end_1712_1815_ok text target overlap Ht Ho) as B.
      eapply Forall_impl; [|exact B]. simpl; intros; lia. }
    eexists; split; [|split].
    + apply (chunk_text_with_total window_end_1712_1815 0
               window_end_1712_1815_ok); assumption.
    + exact B.
    + intros k c Hk _. rewrite Forall_forall in B.
      apply B. eapply nth_error_In; exact Hk.
Qed.

Lemma chunk_bound_witness :
  (exists chunks, chunk_text sample_lines 3 1 = Some chunks
                  /\ Forall (fun c => len c <= 3 + 150) chunks)
  /\ (exists chunks, chunk_text_1712_1815 sample_lines 3 1 = Some chunks
                     /\ Forall (fun c => len c <= 3) chunks
                     /\ all_but_last_within chunks 3).
Proof. apply (chunk_bound sample_lines 3 1); lia. Defined.

(** C3.  For every text, every target size > 0 and every overlap with
    0 <= overlap < target size, [chunk_text] terminates (both versions):
    the loop returns the same result for every iteration budget above the
    length of the text, and in every iteration whose window stops before
    the end of the text the next cursor is strictly greater than the
    current one. *)
Theorem chunk_text_terminates (text : pystr) (target overlap : Z) :
  0 < target -> 0 <= overlap < target ->
  let t := strip text in
  (exists chunks, chunk_text text target overlap = Some chunks)
  /\ (exists chunks, chunk_text_1712_1815 text target overlap = Some chunks)
  /\ (exists r, forall fuel, (length t < fuel)%nat ->
        chunk_loop window_end fuel t (len t) target overlap 0 [] = Some r)
  /\ (exists r, forall fuel, (length t < fuel)%nat ->
        chunk_loop window_end_1712_1815 fuel t (len t) target overlap 0 []
        = Some r)
  /\ (forall i, 0 <= i < len t ->
        window_end t (len t) target i < len t ->
        i < next_cursor overlap (window_end t (len t) target i))
  /\ (forall i, 0 <= i < len t ->
        window_end_1712_1815 t (len t) target i < len t ->
        i < next_cursor overlap (window_end_1712_1815 t (len t) target i)).
Proof.
  intros Ht Ho t.
  split; [|split; [|split; [|split; [|split]]]].
  - eexists. apply (chunk_text_with_total window_end 150 window_end_ok); assumption.
  - eexists. apply (chunk_text_with_total window_end_1712_1815 0
                      window_end_1712_1815_ok); assumption.
  - destruct (loop_total window_end 150 window_end_ok (S (length t)) t target
                overlap 0 []) as (r & Hr); try lia; [unfold len; lia|].
    exists r; intros fuel Hf. eapply loop_fuel_mono; [exact Hr | lia].
  - destruct (loop_total window_end_1712_1815 0 window_end_1712_1815_ok
                (S (length t)) t target overlap 0 []) as (r & Hr);
      try lia; [unfold len; lia|].
    exists r; intros fuel Hf. eapply loop_fuel_mono; [exact Hr | lia].
  - intros i Hi Hj.
    apply (cursor_advances window_end 150 window_end_ok); assumption.
  - intros i Hi Hj.
    apply (cursor_advances window_end_1712_1815 0 window_end_1712_1815_ok);
      assumption.
Qed.

Lemma chunk_text_terminates_witness :
  exists chunks, chunk_text sample_lines 3 1 = Some chunks.
Proof. apply (chunk_text_terminates sample_lines 3 1); lia. Defined.

(** C4.  For every text, every target size > 0 and every overlap with
    0 <= overlap < target size, the chunks returned by [chunk_text] are
    the windows of the run stripped of edge whitespace (blank ones left
    out); the windows, put back together without the characters each one
    repeats from before, give the stripped text exactly; and every
    character of the original text that is not whitespace lies at its
    position inside a returned chunk. *)
Theorem chunk_coverage (text : pystr) (target overlap : Z) :
  0 < target -> 0 <= overlap < target ->
  let t := strip text in
  let ws := chunk_windows text target overlap in
  exists chunks,
    chunk_text text target overlap = Some chunks
    /\ chunks = filter nonempty (map (cut t) ws)
    /\ stitch t 0 ws = t
    /\ covers text chunks.
Proof.
  intros Ht Ho t ws. eexists; split; [|split; [reflexivity|split]].
  - apply (chunk_text_with_total window_end 150 window_end_ok); assumption.
  - apply (chunk_text_with_stitch window_end 150 window_end_ok); assumption.
  - apply (chunk_text_with_covers window_end 150 window_end_ok); assumption.
Qed.

Lemma chunk_coverage_witness :
  exists chunks,
    chunk_text sample_words 3 1 = Some chunks
    /\ chunks = filter nonempty
                  (map (cut (strip sample_words)) (chunk_windows sample_words 3 1))
    /\ stitch (strip sample_words) 0 (chunk_windows sample_words 3 1)
       = strip sample_words
    /\ covers sample_words chunks.
Proof. apply (chunk_coverage sample_words 3 1); lia. Defined.

(** C5, counterexample.  The returned chunks are stripped, so consecutive
    chunks need not share their edge characters: on "ab cd ef" with target
    3 and overlap 1 the first two chunks are "ab" and "cd". *)
Lemma chunk_overlap_fails_after_strip :
  ~ (forall text target overlap chunks,
        len text > target -> 0 < overlap < target ->
        chunk_text text target overlap = Some chunks ->
        consecutive_overlap chunks overlap).
Proof.
  intros H.
  specialize (H sample_words 3 1 _ ltac:(vm_compute; reflexivity) ltac:(lia)
                chunk_text_sample_words 0%nat (lit "ab") (lit "cd")
                eq_refl eq_refl).
  vm_compute in H. discriminate H.
Qed.

(** C5, amended.  For every text and every overlap with
    0 < overlap < target size, in both versions of [chunk_text], every two
    consecutive windows [text[i:j]] of the run, before [strip] is applied
    to them, share [overlap] characters: the trailing [overlap] characters
    of window k equal the leading [overlap] characters of window k+1.  The
    returned chunks are these windows stripped, blank ones left out. *)
Theorem chunk_overlap (text : pystr) (target overlap : Z) :
  0 < overlap < target ->
  let t := strip text in
  (chunk_text text target overlap
   = Some (filter nonempty (map (cut t) (chunk_windows text target overlap)))
   /\ consecutive_overlap
        (map (window_text t) (chunk_windows text target overlap)) overlap)
  /\ (chunk_text_1712_1815 text target overlap
      = Some (filter nonempty
                (map (cut t) (chunk_windows_1712_1815 text target overlap)))
      /\ consecutive_overlap
           (map (window_text t) (chunk_windows_1712_1815 text target overlap))
           overlap).
Proof.
  intros Ho t; split; split.
  - apply (chunk_text_with_total window_end 150 window_end_ok); lia.
  - apply (chunk_text_with_overlap window_end 150 window_end_ok); assumption.
  - apply (chunk_text_with_total window_end_1712_1815 0 window_end_1712_1815_ok);
      lia.
  - apply (chunk_text_with_overlap window_end_1712_1815 0
             window_end_1712_1815_ok); assumption.
Qed.

Lemma chunk_overlap_witness :
  consecutive_overlap
    (map (window_text (strip sample_words)) (chunk_windows sample_words 3 1)) 1.
Proof. apply (chunk_overlap sample_words 3 1); lia. Defined.

(* ===================================================================== *)
(** ** Identifier encoding: round trip *)
(* ===================================================================== *)

Example encode_id_foo : encode_id (lit "docs/AC_2025.pdf#chunk1")
                        = Ok (lit "ZG9jcy9BQ18yMDI1LnBkZiNjaHVuazE").
Proof. reflexivity. Qed.

Example encode_id_accent : encode_id (lit "ação") = Ok (lit "YcOnw6Nv").
Proof. reflexivity. Qed.

Example encode_id_pad2 : encode_id (lit "a") = Ok (lit "YQ").
Proof. reflexivity. Qed.

Example decode_id_pad2 : decode_id (lit "YQ") = Some (lit "a").
Proof. reflexivity. Qed.

Example encode_id_urlsafe : encode_id (lit "~~~???") = Ok (lit "fn5-Pz8_").
Proof. reflexivity. Qed.

Example encode_id_surrogate : encode_id [55296] = Raise UnicodeEncodeError.
Proof. reflexivity. Qed.

(* Settle the innermost boolean tests of the goal by linear arithmetic. *)
Ltac settle_if :=
  match goal with
  | |- context [if ?b then _ else _] =>
      lazymatch b with
      | context [if _ then _ else _] => fail
      | _ => first [ replace b with true by lia | replace b with false by lia ]
      end
  end.

(** *** utf-8 *)

Lemma utf8_cp_roundtrip (c : Z) :
  is_scalar c = true ->
  exists bs, utf8_encode_cp c = Some bs
             /\ forallb is_byte bs = true
             /\ forall rest,
                 utf8_decode (bs ++ rest) = option_map (cons c) (utf8_decode rest).
Proof.
  unfold is_scalar, is_code_point, is_surrogate; intros Hc.
  unfold utf8_encode_cp, is_surrogate.
  repeat settle_if.
  destruct (Z_lt_ge_dec c 128) as [C1|C1]; [|destruct (Z_lt_ge_dec c 2048) as [C2|C2];
    [|destruct (Z_lt_ge_dec c 65536) as [C3|C3]]]; repeat settle_if;
    eexists; (split; [reflexivity|]);
    (split; [unfold is_byte; cbn [forallb]; lia|]); intros rest;
    cbn [app utf8_decode]; unfold is_cont, is_surrogate; cbv zeta;
    repeat settle_if; f_equal; f_equal; lia.
Qed.

Lemma utf8_roundtrip (s : pystr) :
  forallb is_scalar s = true ->
  exists bs, utf8_encode s = Some bs /\ forallb is_byte bs = true
             /\ utf8_decode bs = Some s.
Proof.
  induction s as [|c r IH]; simpl; intros H.
  - exists []; auto.
  - apply andb_true_iff in H; destruct H as (Hc & Hr).
    destruct (utf8_cp_roundtrip c Hc) as (b1 & E1 & B1 & D1).
    destruct (IH Hr) as (b2 & E2 & B2 & D2).
    rewrite E1, E2. exists (b1 ++ b2); split; [reflexivity|]; split.
    + rewrite forallb_app, B1, B2; reflexivity.
    + rewrite D1, D2; reflexivity.
Qed.

Lemma utf8_encode_cp_scalar (c : Z) (bs : pybytes) :
  utf8_encode_cp c = Some bs -> is_scalar c = true.
Proof.
  unfold utf8_encode_cp, is_scalar, is_code_point, is_surrogate.
  split_ifs; intros; try discriminate; lia.
Qed.

Lemma utf8_encode_scalar (s : pystr) (bs : pybytes) :
  utf8_encode s = Some bs -> forallb is_scalar s = true.
Proof.
  revert bs; induction s as [|c r IH]; simpl; intros bs H; [reflexivity|].
  destruct (utf8_encode_cp c) eqn:E1; [|discriminate].
  destruct (utf8_encode r) eqn:E2; [|discriminate].
  rewrite (utf8_encode_cp_scalar _ _ E1), (IH _ eq_refl); reflexivity.
Qed.

(** *** base64 *)

Lemma by_threes {A} (P : list A -> Prop) :
  P [] -> (forall a, P [a]) -> (forall a b, P [a; b]) ->
  (forall a b c r, P r -> P (a :: b :: c :: r)) ->
  forall l, P l.
Proof.
  intros H0 H1 H2 H3.
  fix rec 1.
  intros [|a [|b [|c r]]];
    [apply H0 | apply H1 | apply H2 | apply H3, rec].
Qed.

Lemma b64_val_char (n : Z) :
  0 <= n < 64 -> b64_urlsafe_val (b64_urlsafe_char n) = Some n.
Proof.
  intros H; unfold b64_urlsafe_val, b64_urlsafe_char.
  split_ifs; try (f_equal; lia); exfalso; lia.
Qed.

Lemma b64_char_ok (n : Z) : 0 <= n < 64 -> is_b64_char (b64_urlsafe_char n) = true.
Proof.
  intros H; unfold is_b64_char, b64_urlsafe_char, PAD. split_ifs; lia.
Qed.

Lemma b64_char_not_pad (n : Z) :
  0 <= n < 64 -> (b64_urlsafe_char n =? PAD) = false.
Proof. intros H; pose proof (b64_char_ok n H); unfold is_b64_char in *; lia. Qed.

Lemma b64_roundtrip : forall bs,
  forallb is_byte bs = true ->
  urlsafe_b64decode (urlsafe_b64encode bs) = Some bs.
Proof.
  unfold is_byte.
  induction bs as [|a|a b|a b c r IH] using by_threes; cbn [forallb];
    intros H; [reflexivity| | |];
    cbn [urlsafe_b64encode urlsafe_b64decode].
  - repeat (rewrite b64_val_char by lia).
    rewrite Z.eqb_refl; simpl. f_equal; f_equal; lia.
  - repeat (rewrite b64_val_char by lia).
    rewrite (b64_char_not_pad ((b mod 16) * 4)) by lia.
    rewrite Z.eqb_refl; simpl. repeat f_equal; lia.
  - repeat (rewrite b64_val_char by lia).
    rewrite (b64_char_not_pad ((b mod 16) * 4 + c / 64)) by lia.
    rewrite (b64_char_not_pad (c mod 64)) by lia.
    rewrite IH by (rewrite !andb_true_iff in H; tauto).
    simpl. repeat f_equal; lia.
Qed.

(* The encoder's output: alphabet characters, then at most two '=', four
   characters per group. *)
Lemma b64_shape : forall bs,
  forallb is_byte bs = true ->
  exists body k,
    urlsafe_b64encode bs = body ++ repeat PAD k
    /\ forallb is_b64_char body = true
    /\ (len body + Z.of_nat k) mod 4 = 0 /\ (k <= 2)%nat.
Proof.
  unfold is_byte.
  induction bs as [|a|a b|a b c r IH] using by_threes; cbn [forallb]; intros H.
  - exists [], 0%nat; repeat split; auto.
  - exists [b64_urlsafe_char (a / 4); b64_urlsafe_char ((a mod 4) * 16)], 2%nat.
    cbn [forallb]. repeat (rewrite b64_char_ok by lia). repeat split; auto.
  - exists [b64_urlsafe_char (a / 4); b64_urlsafe_char ((a mod 4) * 16 + b / 16);
            b64_urlsafe_char ((b mod 16) * 4)], 1%nat.
    cbn [forallb]. repeat (rewrite b64_char_ok by lia). repeat split; auto.
  - destruct IH as (body & k & E & F & M & K);
      [rewrite !andb_true_iff in H; tauto|].
    exists (b64_urlsafe_char (a / 4) :: b64_urlsafe_char ((a mod 4) * 16 + b / 16)
            :: b64_urlsafe_char ((b mod 16) * 4 + c / 64)
            :: b64_urlsafe_char (c mod 64) :: body), k.
    cbn [urlsafe_b64encode forallb]. rewrite E, F; repeat (rewrite b64_char_ok by lia).
    repeat split; auto. unfold len in *; cbn [length]. lia.
Qed.

Lemma lstrip_chars_pad (k : nat) (l : pystr) :
  lstrip_chars [PAD] (repeat PAD k ++ l) = lstrip_chars [PAD] l.
Proof. induction k as [|k IH]; simpl; [reflexivity | exact IH]. Qed.

Lemma lstrip_chars_keep (l : pystr) :
  forallb is_b64_char l = true -> lstrip_chars [PAD] l = l.
Proof.
  destruct l as [|c r]; simpl; [reflexivity|].
  unfold is_b64_char; intros H.
  replace (c =? PAD) with false by lia. reflexivity.
Qed.

Lemma rev_repeat {A} (x : A) (k : nat) : rev (repeat x k) = repeat x k.
Proof.
  induction k as [|k IH]; simpl; [reflexivity|].
  rewrite IH. clear IH. induction k; simpl; [reflexivity | f_equal; assumption].
Qed.

Lemma forallb_rev {A} (f : A -> bool) (l : list A) :
  forallb f (rev l) = forallb f l.
Proof.
  induction l as [|x l IH]; simpl; [reflexivity|].
  rewrite forallb_app, IH; simpl. rewrite andb_true_r. apply andb_comm.
Qed.

Lemma rstrip_pad (body : pystr) (k : nat) :
  forallb is_b64_char body = true ->
  rstrip_chars [PAD] (body ++ repeat PAD k) = body.
Proof.
  intros F; unfold rstrip_chars.
  rewrite rev_app_distr, rev_repeat, lstrip_chars_pad.
  rewrite lstrip_chars_keep by (rewrite forallb_rev; exact F).
  apply rev_involutive.
Qed.

Lemma b64_ascii (body : pystr) (k : nat) :
  forallb is_b64_char body = true ->
  decode_ascii (body ++ repeat PAD k) = Ok (body ++ repeat PAD k).
Proof.
  intros F; unfold decode_ascii.
  replace (forallb _ (body ++ repeat PAD k)) with true; [reflexivity|].
  symmetry; rewrite forallb_app; apply andb_true_iff; split.
  - rewrite forallb_forall in *; intros x Hx; specialize (F x Hx).
    unfold is_b64_char in F; lia.
  - clear F; induction k; simpl; auto.
Qed.

(** *** The id codec *)

Lemma encode_id_decode (s : pystr) :
  forallb is_scalar s = true ->
  exists sid, encode_id s = Ok sid /\ decode_id sid = Some s.
Proof.
  intros Hs.
  destruct (utf8_roundtrip s Hs) as (bs & E & B & D).
  destruct (b64_shape bs B) as (body & k & Sh & F & M & K).
  exists body; split.
  - unfold encode_id, encode_utf8; rewrite E; simpl.
    rewrite Sh, b64_ascii by exact F; simpl. rewrite rstrip_pad by exact F.
    reflexivity.
  - unfold decode_id.
    replace (Z.to_nat ((- len body) mod 4)) with k by lia.
    rewrite <- Sh, b64_roundtrip by exact B. exact D.
Qed.

Lemma encode_id_ok_scalar (s sid : pystr) :
  encode_id s = Ok sid -> forallb is_scalar s = true.
Proof.
  unfold encode_id, encode_utf8.
  destruct (utf8_encode s) eqn:E; [|discriminate].
  intros _; eapply utf8_encode_scalar; exact E.
Qed.

(* A lone surrogate has no utf-8 encoding. *)
Lemma utf8_encode_lone_surrogate (s : pystr) :
  existsb is_surrogate s = true -> utf8_encode s = None.
Proof.
  induction s as [|c r IH]; simpl; [discriminate|].
  intros H. apply orb_true_iff in H. destruct H as [H|H].
  - replace (utf8_encode_cp c) with (@None pybytes); [reflexivity|].
    unfold utf8_encode_cp. rewrite H. unfold is_surrogate in H.
    repeat settle_if. reflexivity.
  - rewrite (IH H). destruct (utf8_encode_cp c); reflexivity.
Qed.

Lemma encode_id_lone_surrogate (s : pystr) :
  existsb is_surrogate s = true -> encode_id s = Raise UnicodeEncodeError.
Proof.
  intros H. unfold encode_id, encode_utf8.
  rewrite (utf8_encode_lone_surrogate s H). reflexivity.
Qed.

Lemma b64_char_urlsafe (n : Z) :
  0 <= n < 64 -> is_urlsafe_char (b64_urlsafe_char n) = true.
Proof. intros H; unfold is_urlsafe_char, b64_urlsafe_char. split_ifs; lia. Qed.

(* [b64_shape], with the alphabet of the characters before the padding. *)
Lemma b64_body : forall bs,
  forallb is_byte bs = true ->
  exists body k,
    urlsafe_b64encode bs = body ++ repeat PAD k
    /\ forallb is_b64_char body = true
    /\ forallb is_urlsafe_char body = true
    /\ (len body + Z.of_nat k) mod 4 = 0 /\ (k <= 2)%nat.
Proof.
  unfold is_byte.
  induction bs as [|a|a b|a b c r IH] using by_threes; cbn [forallb]; intros H.
  - exists [], 0%nat; repeat split; auto.
  - exists [b64_urlsafe_char (a / 4); b64_urlsafe_char ((a mod 4) * 16)], 2%nat.
    cbn [forallb]. repeat (rewrite b64_char_ok by lia).
    repeat (rewrite b64_char_urlsafe by lia). repeat split; auto.
  - exists [b64_urlsafe_char (a / 4); b64_urlsafe_char ((a mod 4) * 16 + b / 16);
            b64_urlsafe_char ((b mod 16) * 4)], 1%nat.
    cbn [forallb]. repeat (rewrite b64_char_ok by lia).
    repeat (rewrite b64_char_urlsafe by lia). repeat split; auto.
  - destruct IH as (body & k & E & F & U & M & K);
      [rewrite !andb_true_iff in H; tauto|].
    exists (b64_urlsafe_char (a / 4) :: b64_urlsafe_char ((a mod 4) * 16 + b / 16)
            :: b64_urlsafe_char ((b mod 16) * 4 + c / 64)
            :: b64_urlsafe_char (c mod 64) :: body), k.
    cbn [urlsafe_b64encode forallb]. rewrite E, F, U.
    repeat (rewrite b64_char_ok by lia). repeat (rewrite b64_char_urlsafe by lia).
    repeat split; auto. unfold len in *; cbn [length]. lia.
Qed.

(* What an id is: the base64 text of the utf-8 bytes less its padding,
   which decodes to the string it was made from. *)
Lemma encode_id_shape (s sid : pystr) :
  encode_id s = Ok sid ->
  exists bs k,
    utf8_encode s = Some bs
    /\ urlsafe_b64encode bs = sid ++ repeat PAD k
    /\ forallb is_urlsafe_char sid = true
    /\ decode_id sid = Some s.
Proof.
  intros H.
  destruct (utf8_roundtrip s (encode_id_ok_scalar _ _ H)) as (bs & E & B & D).
  destruct (b64_body bs B) as (body & k & Sh & F & U & M & K).
  unfold encode_id, encode_utf8 in H. rewrite E in H; simpl in H.
  rewrite Sh, b64_ascii in H by exact F; simpl in H.
  rewrite rstrip_pad in H by exact F. injection H as <-.
  exists bs, k. repeat split; auto.
  unfold decode_id.
  replace (Z.to_nat ((- len body) mod 4)) with k by lia.
  rewrite <- Sh, b64_roundtrip by exact B. exact D.
Qed.

(* ===================================================================== *)
(** ** Record builder *)
(* ===================================================================== *)

Lemma lookup_del_other (d : pydict) (k k' : pystr) :
  str_eqb k' k = false -> lookup (del d k') k = lookup d k.
Proof.
  intros Hk; induction d as [|[k0 v0] r IH]; simpl; [reflexivity|].
  destruct (str_eqb k0 k') eqn:E1; simpl.
  - destruct (str_eqb k0 k) eqn:E2; [|exact IH].
    exfalso. clear IH.
    assert (T : forall a b c, str_eqb a b = true -> str_eqb a c = true ->
                              str_eqb b c = true).
    { induction a as [|x a IHa]; intros [|y b] [|z c]; simpl; try discriminate;
        auto.
      intros H1 H2. apply andb_true_iff in H1, H2.
      destruct H1 as (A1 & A2), H2 as (B1 & B2).
      apply andb_true_iff; split; [lia | eapply IHa; eauto]. }
    rewrite (T _ _ _ E1 E2) in Hk; discriminate.
  - destruct (str_eqb k0 k); [reflexivity | exact IH].
Qed.

Lemma get_drop_none_other (doc : pydict) (k k' : pystr) :
  str_eqb k' k = false -> get (drop_none doc k') k = get doc k.
Proof.
  intros Hk; unfold drop_none.
  destruct (get doc k'); try reflexivity.
  unfold get; rewrite lookup_del_other by exact Hk; reflexivity.
Qed.

Section BuildFacts.

Context {PB : Builtins} {SV : Services}.

Lemma only_clock_refl w : only_clock w w.
Proof. repeat split. Qed.

Lemma only_clock_trans w1 w2 w3 :
  only_clock w1 w2 -> only_clock w2 w3 -> only_clock w1 w3.
Proof. unfold only_clock; intuition congruence. Qed.

Lemma coerce_dt_total (v : json) (w : world) :
  exists w' s, coerce_dt v w = (w', Ok s) /\ only_clock w w'.
Proof.
  unfold coerce_dt.
  assert (N : exists w' s, now w = (w', Ok s) /\ only_clock w w').
  { eexists; eexists; split; [reflexivity | repeat split]. }
  destruct (negb (truthy v)); [exact N|].
  destruct v; try exact N.
  destruct (fromisoformat_utc s); [|exact N].
  eexists; eexists; split; [reflexivity | apply only_clock_refl].
Qed.

Lemma optional_dt_total (obj : pydict) (k : pystr) (w : world) :
  exists w' d, optional_dt obj k w = (w', Ok d) /\ only_clock w w'.
Proof.
  unfold optional_dt. destruct (truthy (get obj k)).
  - destruct (coerce_dt_total (get obj k) w) as (w' & s & E & C).
    unfold pbind; rewrite E. eexists; eexists; split; [reflexivity | exact C].
  - eexists; eexists; split; [reflexivity | apply only_clock_refl].
Qed.

(* What a returned document holds under "id" and "id_original". *)
Lemma build_doc_ids (obj : pydict) (v : vec) (w w' : world) (doc : pydict) :
  build_doc obj v w = (w', Ok doc) ->
  exists sid, encode_id (raw_id_of obj) = Ok sid
              /\ get doc (lit "id") = JStr sid
              /\ get doc (lit "id_original") = JStr (str_field obj (lit "id") [])
              /\ get doc (lit "text") = JStr (input_text obj).
Proof.
  unfold build_doc, pbind, lift.
  destruct (encode_id (raw_id_of obj)) as [sid|e]; [|discriminate].
  destruct (chunk_of obj) as [n|e]; [|discriminate].
  destruct (optional_dt obj (lit "data_publicacao") w) as [w1 [d1|e]];
    [|discriminate].
  destruct (optional_dt obj (lit "prazo_inicio") w1) as [w2 [d2|e]];
    [|discriminate].
  destruct (optional_dt obj (lit "prazo_fim") w2) as [w3 [d3|e]];
    [|discriminate].
  destruct (referencias_of obj) as [l|e]; [|discriminate].
  destruct (coerce_dt (get obj (lit "updated_at")) w3) as [w4 [u|e]];
    [|discriminate].
  unfold ret. intros [= _ <-]. exists sid. split; [reflexivity|].
  cbn [fold_left].
  repeat split; repeat (rewrite get_drop_none_other by reflexivity); reflexivity.
Qed.

Lemma build_doc_total (obj : pydict) (v : vec) (w : world) :
  buildable obj ->
  exists w' doc, build_doc obj v w = (w', Ok doc) /\ only_clock w w'.
Proof.
  intros ((sid & E1) & (n & E2) & (l & E3)).
  unfold build_doc, pbind, lift. rewrite E1, E2.
  destruct (optional_dt_total obj (lit "data_publicacao") w) as (w1 & d1 & -> & C1).
  destruct (optional_dt_total obj (lit "prazo_inicio") w1) as (w2 & d2 & -> & C2).
  destruct (optional_dt_total obj (lit "prazo_fim") w2) as (w3 & d3 & -> & C3).
  rewrite E3.
  destruct (coerce_dt_total (get obj (lit "updated_at")) w3) as (w4 & u & -> & C4).
  eexists; eexists; split; [reflexivity|].
  eauto using only_clock_trans.
Qed.

Lemma build_docs_total : forall (objs : list pydict) (vecs : list vec) (w : world),
  length vecs = length objs -> Forall buildable objs ->
  exists w' docs, build_docs objs vecs w = (w', Ok docs)
                  /\ only_clock w w' /\ Forall2 built_from objs docs.
Proof.
  unfold build_docs.
  induction objs as [|obj objs IH]; intros [|v vecs] w Hl Hb; try discriminate.
  - exists w, []; repeat split; constructor.
  - inversion Hb as [|? ? Hb1 Hb2]; subst.
    destruct (build_doc_total obj v w Hb1) as (w1 & doc & E1 & C1).
    destruct (IH vecs w1) as (w2 & docs & E2 & C2 & F2); [simpl in Hl; lia | exact Hb2 |].
    exists w2, (doc :: docs). cbn [combine map_prog fst snd]. unfold pbind at 1.
    rewrite E1. unfold pbind at 1. rewrite E2. unfold ret.
    split; [reflexivity|]. split; [eauto using only_clock_trans|].
    constructor; [|exact F2]. exists v, w, w1; exact E1.
Qed.

End BuildFacts.

Section BuildRuns.

Context {PB : Builtins} {SV : Services}.

Lemma optional_dt_only_clock (obj : pydict) (k : pystr) (w w' : world) r :
  optional_dt obj k w = (w', r) -> only_clock w w'.
Proof.
  intros H. destruct (optional_dt_total obj k w) as (w1 & d & E & C).
  rewrite E in H. injection H as <- _. exact C.
Qed.

Lemma coerce_dt_only_clock (v : json) (w w' : world) r :
  coerce_dt v w = (w', r) -> only_clock w w'.
Proof.
  intros H. destruct (coerce_dt_total v w) as (w1 & d & E & C).
  rewrite E in H. injection H as <- _. exact C.
Qed.

(* Whether it returns or raises, the builder sends nothing. *)
Lemma build_doc_only_clock (obj : pydict) (v : vec) (w w' : world) r :
  build_doc obj v w = (w', r) -> only_clock w w'.
Proof.
  unfold build_doc, pbind, lift.
  destruct (encode_id (raw_id_of obj)) as [sid|e];
    [|intros [= <- _]; apply only_clock_refl].
  destruct (chunk_of obj) as [n|e]; [|intros [= <- _]; apply only_clock_refl].
  destruct (optional_dt obj (lit "data_publicacao") w) as [w1 [d1|e]] eqn:O1;
    apply optional_dt_only_clock in O1; [|intros [= <- _]; exact O1].
  destruct (optional_dt obj (lit "prazo_inicio") w1) as [w2 [d2|e]] eqn:O2;
    apply optional_dt_only_clock in O2;
    pose proof (only_clock_trans _ _ _ O1 O2) as C2;
    [|intros [= <- _]; exact C2].
  destruct (optional_dt obj (lit "prazo_fim") w2) as [w3 [d3|e]] eqn:O3;
    apply optional_dt_only_clock in O3;
    pose proof (only_clock_trans _ _ _ C2 O3) as C3;
    [|intros [= <- _]; exact C3].
  destruct (referencias_of obj) as [l|e]; [|intros [= <- _]; exact C3].
  destruct (coerce_dt (get obj (lit "updated_at")) w3) as [w4 [u|e]] eqn:O4;
    apply coerce_dt_only_clock in O4;
    intros [= <- _]; exact (only_clock_trans _ _ _ C3 O4).
Qed.

Lemma build_docs_only_clock : forall (objs : list pydict) (vecs : list vec)
                                     (w w' : world) r,
  build_docs objs vecs w = (w', r) -> only_clock w w'.
Proof.
  unfold build_docs. intros objs vecs.
  induction (combine objs vecs) as [|ov l IH]; intros w w' r; cbn [map_prog].
  - intros [= <- _]; apply only_clock_refl.
  - unfold pbind at 1.
    destruct (build_doc (fst ov) (snd ov) w) as [w1 [doc|e]] eqn:E;
      [|intros [= <- _]; eapply build_doc_only_clock; exact E].
    unfold pbind at 1.
    destruct (map_prog _ l w1) as [w2 [ds|e]] eqn:E2; intros [= <- _];
      eapply only_clock_trans;
      [eapply build_doc_only_clock; exact E | eapply IH; exact E2
      |eapply build_doc_only_clock; exact E | eapply IH; exact E2].
Qed.

(* The documents returned are built from the records at the same
   positions: [zip] pairs them in order and stops at the shorter list. *)
Lemma build_docs_built : forall (objs : list pydict) (vecs : list vec)
                                (w w' : world) (docs : list pydict),
  build_docs objs vecs w = (w', Ok docs) ->
  Forall2 built_from (firstn (length docs) objs) docs.
Proof.
  unfold build_docs.
  induction objs as [|obj objs IH]; intros vecs w w' docs.
  - cbn [combine map_prog]. unfold ret. intros [= _ <-]. constructor.
  - destruct vecs as [|v vecs]; cbn [combine map_prog fst snd].
    + unfold ret. intros [= _ <-]. constructor.
    + unfold pbind at 1.
      destruct (build_doc obj v w) as [w1 [doc|e]] eqn:E; [|discriminate].
      unfold pbind at 1.
      destruct (map_prog _ (combine objs vecs) w1) as [w2 [ds|e]] eqn:E2;
        [|discriminate].
      unfold ret. intros [= _ <-]. cbn [length firstn].
      constructor; [exists v, w, w1; exact E | eapply IH; exact E2].
Qed.

(* A single record: the first conversion to raise ends the call. *)
Lemma build_docs_encode_raises (obj : pydict) (v : vec) (w : world) (e : exn) :
  encode_id (raw_id_of obj) = Raise e ->
  build_docs [obj] [v] w = (w, Raise e).
Proof.
  intros H. unfold build_docs. cbn [combine map_prog fst snd].
  unfold pbind at 1. unfold build_doc, pbind, lift. rewrite H. reflexivity.
Qed.

End BuildRuns.

(* ===================================================================== *)
(** ** Batching and the upsert loop *)
(* ===================================================================== *)

Lemma py_range_from_zero (n B : Z) :
  0 < B ->
  py_range 0 n B
  = map (fun k => Z.of_nat k * B) (seq 0 (Z.to_nat ((n + B - 1) / B))).
Proof.
  intros HB; unfold py_range. replace (B >? 0) with true by lia.
  rewrite Z.sub_0_r. apply map_ext; intros k; lia.
Qed.

Lemma concat_slices {A} (l : list A) (B : Z) (m : nat) :
  0 < B ->
  concat (map (fun start => slice l start (start + B))
              (map (fun k => Z.of_nat k * B) (seq 0 m)))
  = slice l 0 (Z.of_nat m * B).
Proof.
  intros HB; induction m as [|m IH].
  - simpl. unfold slice; reflexivity.
  - rewrite seq_S, !map_app, concat_app, IH. cbn [map concat Nat.add].
    rewrite app_nil_r.
    replace (Z.of_nat (S m) * B) with (Z.of_nat m * B + B) by lia.
    apply slice_join; nia.
Qed.

Lemma slice_beyond {A} (l : list A) (j : Z) : len l <= j -> slice l 0 j = l.
Proof.
  intros H; unfold slice, len in *; simpl. rewrite Z.sub_0_r.
  apply firstn_all2; lia.
Qed.

Lemma slice_nonempty {A} (l : list A) (i j : Z) :
  0 <= i < len l -> i < j -> slice l i j <> [].
Proof.
  intros Hi Hj E.
  assert (L : length (slice l i j) = 0%nat) by (rewrite E; reflexivity).
  unfold slice, len in *. rewrite length_firstn, length_skipn in L. lia.
Qed.

Lemma In_slice {A} (l : list A) (i j : Z) (x : A) : In x (slice l i j) -> In x l.
Proof.
  unfold slice; intros H.
  rewrite <- (firstn_skipn (Z.to_nat i) l). apply in_or_app; right.
  rewrite <- (firstn_skipn (Z.to_nat (j - i)) (skipn (Z.to_nat i) l)).
  apply in_or_app; left; exact H.
Qed.

(* The slices of the loop: not empty, at most [B] long, and in a row they
   are the whole list. *)
Lemma batches_partition {A} (objs : list A) (B : Z) :
  0 < B ->
  concat (batches objs B) = objs
  /\ Forall (fun b => b <> [] /\ len b <= B) (batches objs B)
  /\ py_range 0 (len objs) B
     = map (fun k => Z.of_nat k * B) (seq 0 (length (batches objs B))).
Proof.
  intros HB; unfold batches. rewrite py_range_from_zero by exact HB.
  set (m := Z.to_nat ((len objs + B - 1) / B)).
  pose proof (len_nonneg objs) as Hn.
  assert (Hm : len objs <= Z.of_nat m * B /\ (Z.of_nat m - 1) * B < len objs).
  { unfold m. rewrite Z2Nat.id by (apply Z.div_pos; lia).
    pose proof (Z.div_mod (len objs + B - 1) B ltac:(lia)).
    pose proof (Z.mod_pos_bound (len objs + B - 1) B HB). nia. }
  split; [|split].
  - rewrite concat_slices by exact HB. apply slice_beyond; lia.
  - apply Forall_forall; intros b Hb.
    apply in_map_iff in Hb; destruct Hb as (start & <- & Hs).
    apply in_map_iff in Hs; destruct Hs as (k & <- & Hk).
    apply in_seq in Hk.
    split.
    + apply slice_nonempty; nia.
    + pose proof (slice_len objs (Z.of_nat k * B) (Z.of_nat k * B + B)). nia.
  - rewrite !length_map, length_seq. reflexivity.
Qed.

Lemma embedded_app (a b : list event) : embedded (a ++ b) = embedded a ++ embedded b.
Proof.
  induction a as [|e a IH]; simpl; [reflexivity|].
  destruct e; rewrite IH; try reflexivity. apply app_assoc.
Qed.

Lemma uploaded_app (a b : list event) : uploaded (a ++ b) = uploaded a ++ uploaded b.
Proof.
  induction a as [|e a IH]; simpl; [reflexivity|].
  destruct e; rewrite IH; try reflexivity. apply app_assoc.
Qed.

Lemma Forall2_map_left {A C D} (R : C -> D -> Prop) (f : A -> C) :
  forall (l : list A) (l' : list D),
    Forall2 (fun a d => R (f a) d) l l' -> Forall2 R (map f l) l'.
Proof. induction 1; simpl; constructor; assumption. Qed.

Lemma Forall2_map_left_inv {A C D} (R : C -> D -> Prop) (f : A -> C) :
  forall (l : list A) (l' : list D),
    Forall2 R (map f l) l' -> Forall2 (fun a d => R (f a) d) l l'.
Proof.
  induction l as [|a l IH]; intros l' H; simpl in H.
  - inversion H. constructor.
  - destruct l' as [|d l']; inversion H as [|? ? ? ? H1 H2].
    constructor; [exact H1 | apply IH; exact H2].
Qed.

Lemma Forall2_concat {A C} (R : A -> C -> Prop) :
  forall (ls : list (list A)) (ls' : list (list C)),
    Forall2 (Forall2 R) ls ls' -> Forall2 R (concat ls) (concat ls').
Proof.
  induction 1; simpl; [constructor|]. apply Forall2_app; assumption.
Qed.

Lemma embed_requests_app (a b : list event) :
  embed_requests (a ++ b) = embed_requests a ++ embed_requests b.
Proof.
  induction a as [|e a IH]; simpl; [reflexivity|].
  destruct e; rewrite IH; reflexivity.
Qed.

Lemma upload_requests_app (a b : list event) :
  upload_requests (a ++ b) = upload_requests a ++ upload_requests b.
Proof.
  induction a as [|e a IH]; simpl; [reflexivity|].
  destruct e; rewrite IH; reflexivity.
Qed.

Section LoopFacts.

Context {PB : Builtins} {SV : Services}.
Variables (emb_dim : Z) (objs : list pydict) (B total : Z).

Lemma mismatch_found (vecs : list vec) :
  (exists v, In v vecs /\ len v <> emb_dim) ->
  existsb (fun v => negb (len v =? emb_dim)) vecs = true.
Proof.
  intros (v & Hin & Hv). apply existsb_exists. exists v; split; [exact Hin | lia].
Qed.

Lemma no_mismatch (vecs : list vec) :
  Forall (fun v => len v = emb_dim) vecs ->
  existsb (fun v => negb (len v =? emb_dim)) vecs = false.
Proof.
  induction 1 as [|v vecs Hv _ IH]; simpl; [reflexivity|].
  rewrite IH. replace (len v =? emb_dim) with true by lia. reflexivity.
Qed.

(* The text sent for a record: its "text", else its "content", else ''. *)
Lemma input_text_cases (o : pydict) :
  input_text o
  = if truthy (get o (lit "text")) then py_str (get o (lit "text"))
    else if truthy (get o (lit "content")) then py_str (get o (lit "content"))
    else [].
Proof.
  unfold input_text, str_field2, py_or.
  destruct (truthy (get o (lit "text"))); [reflexivity|].
  destruct (truthy (get o (lit "content"))); reflexivity.
Qed.

(* One batch of a run in which nothing raises. *)
Lemma process_batch_ok (start : Z) (w : world) :
  provider_in_contract emb_dim -> index_accepts ->
  Forall buildable (slice objs start (start + B)) ->
  exists w' docs,
    process_batch emb_dim objs B total start w = (w', Ok tt)
    /\ embed_requests (trace w')
       = embed_requests (trace w) ++ [map input_text (slice objs start (start + B))]
    /\ upload_requests (trace w')
       = upload_requests (trace w) ++ [map upload_action docs]
    /\ Forall2 built_from (slice objs start (start + B)) docs.
Proof.
  intros HP HI HB. unfold process_batch.
  set (sl := slice objs start (start + B)) in *.
  destruct (HP (embed_calls w) (map input_text sl)) as (vecs & E & L & D).
  unfold pbind at 1. unfold make_vecs at 1. rewrite E.
  rewrite (no_mismatch vecs D). unfold pbind at 1.
  match goal with |- context [build_docs sl vecs ?w1] =>
    destruct (build_docs_total sl vecs w1) as (w2 & docs & E2 & (C1 & C2 & C3) & F)
  end; [rewrite length_map in L; exact L | exact HB |].
  rewrite E2.
  unfold pbind at 1. unfold upload_documents at 1. rewrite HI.
  unfold print. eexists; exists docs; split; [reflexivity|].
  cbn [trace] in *. rewrite C1.
  repeat split.
  - rewrite !embed_requests_app; simpl. rewrite !app_nil_r. reflexivity.
  - rewrite !upload_requests_app; simpl. rewrite !app_nil_r. reflexivity.
  - exact F.
Qed.

(* One batch, whatever happens in it: one request to the provider, and at
   most one to the index, for documents built from records of the slice. *)
Lemma process_batch_run (start : Z) (w w' : world) (r : result unit) :
  process_batch emb_dim objs B total start w = (w', r) ->
  embed_requests (trace w')
  = embed_requests (trace w) ++ [map input_text (slice objs start (start + B))]
  /\ ((r <> Ok tt /\ upload_requests (trace w') = upload_requests (trace w))
      \/ exists docs,
           upload_requests (trace w')
           = upload_requests (trace w) ++ [map upload_action docs]
           /\ Forall2 built_from
                (firstn (length docs) (slice objs start (start + B))) docs).
Proof.
  unfold process_batch.
  set (sl := slice objs start (start + B)).
  unfold pbind at 1. unfold make_vecs at 1.
  destruct (embed (embed_calls w) (map input_text sl)) as [vecs|e].
  - destruct (existsb (fun v => negb (len v =? emb_dim)) vecs).
    + unfold raise. intros [= <- <-]. cbn [trace].
      rewrite embed_requests_app, upload_requests_app; simpl.
      rewrite app_nil_r. split; [reflexivity|]. left; split; [discriminate | reflexivity].
    + unfold pbind at 1.
      match goal with |- context [build_docs sl vecs ?w0] =>
        destruct (build_docs sl vecs w0) as [w1 [docs|e]] eqn:Bd
      end.
      * pose proof (build_docs_only_clock _ _ _ _ _ Bd) as (C1 & _ & _).
        pose proof (build_docs_built _ _ _ _ _ Bd) as F.
        cbn [trace] in C1.
        unfold pbind at 1. unfold upload_documents at 1.
        destruct (index_upload (upload_calls w1) (map upload_action docs)) as [[]|e].
        -- unfold print. intros [= <- <-]. cbn [trace]. rewrite C1.
           rewrite !embed_requests_app, !upload_requests_app; simpl.
           rewrite !app_nil_r. split; [reflexivity|].
           right; exists docs; split; [reflexivity | exact F].
        -- intros [= <- <-]. cbn [trace]. rewrite C1.
           rewrite !embed_requests_app, !upload_requests_app; simpl.
           rewrite !app_nil_r. split; [reflexivity|].
           right; exists docs; split; [reflexivity | exact F].
      * pose proof (build_docs_only_clock _ _ _ _ _ Bd) as (C1 & _ & _).
        cbn [trace] in C1.
        intros [= <- <-]. rewrite C1.
        rewrite embed_requests_app, upload_requests_app; simpl.
        rewrite app_nil_r. split; [reflexivity|].
        left; split; [discriminate | reflexivity].
  - intros [= <- <-]. cbn [trace].
    rewrite embed_requests_app, upload_requests_app; simpl.
    rewrite app_nil_r. split; [reflexivity|]. left; split; [discriminate | reflexivity].
Qed.

Lemma for_each_ok : forall (starts : list Z) (w : world),
  provider_in_contract emb_dim -> index_accepts ->
  Forall (fun start => Forall buildable (slice objs start (start + B))) starts ->
  exists w' docss,
    for_each starts (process_batch emb_dim objs B total) w = (w', Ok tt)
    /\ embed_requests (trace w')
       = embed_requests (trace w)
         ++ map (fun start => map input_text (slice objs start (start + B))) starts
    /\ upload_requests (trace w')
       = upload_requests (trace w) ++ map (map upload_action) docss
    /\ Forall2 (fun start docs =>
                  Forall2 built_from (slice objs start (start + B)) docs)
               starts docss.
Proof.
  induction starts as [|start starts IH]; intros w HP HI HB.
  - exists w, []; simpl; rewrite !app_nil_r; repeat split; constructor.
  - inversion HB as [|? ? HB1 HB2]; subst.
    destruct (process_batch_ok start w HP HI HB1) as (w1 & d1 & E1 & T1 & U1 & F1).
    destruct (IH w1 HP HI HB2) as (w2 & d2 & E2 & T2 & U2 & F2).
    exists w2, (d1 :: d2). cbn [for_each map]. unfold pbind at 1.
    rewrite E1. split; [exact E2|]. split; [|split].
    + rewrite T2, T1, <- app_assoc; reflexivity.
    + rewrite U2, U1, <- app_assoc; reflexivity.
    + constructor; assumption.
Qed.

(* The loop, whatever happens in it: it works through the starts in
   order and ends at the first batch that raises. *)
Lemma for_each_run : forall (starts : list Z) (w w' : world) (r : result unit),
  for_each starts (process_batch emb_dim objs B total) w = (w', r) ->
  exists (m : nat) (docss : list (list pydict)),
    (length docss <= m <= length starts)%nat
    /\ embed_requests (trace w')
       = embed_requests (trace w)
         ++ map (fun start => map input_text (slice objs start (start + B)))
                (firstn m starts)
    /\ upload_requests (trace w')
       = upload_requests (trace w) ++ map (map upload_action) docss
    /\ Forall2 (fun start docs =>
                  Forall2 built_from
                    (firstn (length docs) (slice objs start (start + B))) docs)
               (firstn (length docss) starts) docss
    /\ (r = Ok tt -> m = length starts /\ length docss = length starts).
Proof.
  induction starts as [|start starts IH]; intros w w' r.
  - cbn [for_each]. unfold ret. intros [= <- <-].
    exists 0%nat, []; simpl; rewrite !app_nil_r. repeat split; auto.
  - cbn [for_each]. unfold pbind at 1.
    destruct (process_batch emb_dim objs B total start w) as [w1 [[]|e]] eqn:E1.
    + intros E2.
      destruct (process_batch_run start w w1 _ E1) as (T1 & [(N & _)|(d1 & U1 & F1)]);
        [congruence|].
      destruct (IH w1 w' r E2) as (m & docss & L & T2 & U2 & F2 & K).
      exists (S m), (d1 :: docss). cbn [length firstn map].
      split; [lia|]. split; [|split; [|split]].
      * rewrite T2, T1, <- app_assoc. reflexivity.
      * rewrite U2, U1, <- app_assoc. reflexivity.
      * constructor; assumption.
      * intros R. destruct (K R). lia.
    + intros [= <- <-].
      destruct (process_batch_run start w w1 _ E1) as (T1 & [(_ & U1)|(d1 & U1 & F1)]).
      * exists 1%nat, []. cbn [length firstn map].
        split; [lia|]. rewrite T1, U1, app_nil_r.
        repeat split; try discriminate. constructor.
      * exists 1%nat, [d1]. cbn [length firstn map].
        split; [lia|]. rewrite T1, U1.
        repeat split; try discriminate. repeat constructor. exact F1.
Qed.

(* The loop stops at the first batch that raises. *)
Lemma for_each_raise (start : Z) (rest : list Z) (body : Z -> prog unit)
      (w w' : world) (e : exn) :
  body start w = (w', Raise e) ->
  for_each (start :: rest) body w = (w', Raise e).
Proof. intros H; cbn [for_each]; unfold pbind; rewrite H; reflexivity. Qed.

End LoopFacts.

(* ===================================================================== *)
(** ** Record builder and upsert loop: the specification's properties *)
(* ===================================================================== *)

(** C1, counterexample.  A [str] may hold a lone surrogate (json.loads
    yields one for the escape \ud800); [encode('utf-8')] raises on it, so
    such an [id_original] has no id to decode. *)
Lemma id_roundtrip_fails_on_lone_surrogate :
  ~ (forall s : pystr,
        forallb is_code_point s = true ->
        exists sid, encode_id s = Ok sid /\ decode_id sid = Some s).
Proof.
  intros H. destruct (H [55296] eq_refl) as (sid & E & _).
  vm_compute in E. discriminate E.
Qed.

(** C1, amended.  For every string [id_original] without lone surrogate
    code points, the encoding of the record builder (utf-8, URL-safe
    base64, trailing '=' stripped) yields an id; decoding that id (padding
    re-added, base64-decoded, utf-8-decoded) gives [id_original] back
    exactly; and no other string encodes to the same id.  On every string
    that holds a lone surrogate the encoding raises UnicodeEncodeError,
    so there is no id. *)
Theorem id_roundtrip (id_original : pystr) :
  (forallb is_scalar id_original = true ->
   exists sid,
     encode_id id_original = Ok sid
     /\ decode_id sid = Some id_original
     /\ forall other, encode_id other = Ok sid -> other = id_original)
  /\ (existsb is_surrogate id_original = true ->
      encode_id id_original = Raise UnicodeEncodeError
      /\ forall sid, encode_id id_original <> Ok sid).
Proof.
  split.
  - intros Hs. destruct (encode_id_decode id_original Hs) as (sid & E & D).
    exists sid; split; [exact E|]; split; [exact D|].
    intros other Ho.
    destruct (encode_id_decode other (encode_id_ok_scalar _ _ Ho))
      as (sid' & E' & D').
    rewrite Ho in E'; injection E' as <-.
    rewrite D in D'; injection D' as <-; reflexivity.
  - intros Hs. pose proof (encode_id_lone_surrogate id_original Hs) as E.
    split; [exact E|]. intros sid; rewrite E; discriminate.
Qed.

Lemma id_roundtrip_witness :
  (exists sid,
     encode_id (lit "docs/AC_2025.pdf#chunk1") = Ok sid
     /\ decode_id sid = Some (lit "docs/AC_2025.pdf#chunk1")
     /\ forall other, encode_id other = Ok sid -> other = lit "docs/AC_2025.pdf#chunk1")
  /\ encode_id (lit "AC" ++ [56832] ++ lit ".pdf") = Raise UnicodeEncodeError.
Proof.
  split.
  - apply (id_roundtrip (lit "docs/AC_2025.pdf#chunk1")); reflexivity.
  - apply (id_roundtrip (lit "AC" ++ [56832] ++ lit ".pdf")); reflexivity.
Defined.

Section IngestClaims.

Context {PB : Builtins} {SV : Services}.

(** C6.  When the provider has answered a batch and one of the vectors it
    returned has a length other than [emb_dim], the batch raises the
    dimension error right after the embedding request: nothing is sent to
    the index, the builder has not run (the clock has not been read), and
    the loop stops there, whatever batches were still to come. *)
Theorem dimension_mismatch_aborts_batch
        (emb_dim : Z) (objs : list pydict) (B total start : Z) (rest : list Z)
        (w : world) (vecs : list vec) :
  let inputs := map input_text (slice objs start (start + B)) in
  embed (embed_calls w) inputs = Ok vecs ->
  (exists v, In v vecs /\ len v <> emb_dim) ->
  exists w',
    process_batch emb_dim objs B total start w = (w', Raise DIM_ERROR)
    /\ for_each (start :: rest) (process_batch emb_dim objs B total) w
       = (w', Raise DIM_ERROR)
    /\ trace w' = trace w ++ [EvEmbed inputs]
    /\ filter is_upload (trace w') = filter is_upload (trace w)
    /\ upload_calls w' = upload_calls w
    /\ clock_reads w' = clock_reads w.
Proof.
  intros inputs E M.
  assert (P : process_batch emb_dim objs B total start w
              = ({| trace := trace w ++ [EvEmbed inputs];
                    clock_reads := clock_reads w;
                    embed_calls := S (embed_calls w);
                    upload_calls := upload_calls w |}, Raise DIM_ERROR)).
  { unfold process_batch, pbind, make_vecs. fold inputs. rewrite E.
    rewrite (mismatch_found emb_dim vecs M). reflexivity. }
  eexists; split; [exact P|]. split; [apply for_each_raise; exact P|].
  cbn [trace upload_calls clock_reads]. repeat split.
  rewrite filter_app; simpl. apply app_nil_r.
Qed.

(** C9, counterexample.  A record without "id" whose "id_original" is
    the lone surrogate U+D800: [encode('utf-8')] raises, and [build_docs]
    returns no document for it. *)
Lemma build_docs_fails_on_lone_surrogate :
  ~ (forall (obj : pydict) (s : pystr),
        truthy (get obj (lit "id")) = false ->
        get obj (lit "id_original") = JStr s -> s <> [] ->
        exists w' doc,
          build_docs (PB := example_builtins) (SV := example_services 2)
                     [obj] [[JInt 0; JInt 0]] world0 = (w', Ok [doc])).
Proof.
  intros H.
  destruct (H surrogate_record [55296] eq_refl eq_refl ltac:(discriminate))
    as (w' & doc & E).
  vm_compute in E. discriminate E.
Qed.

(** C9, amended.  For every input object whose "id" is absent, None or
    empty (any value that counts as false) while "id_original" is a
    non-empty string [s] on which no conversion of [build_docs] raises
    ([s] holds no lone surrogate, int() accepts the object's chunk, list()
    accepts its referencias_legais): [build_docs] produces a document whose
    "id" is the padding-stripped URL-safe base64 encoding of [s] and whose
    "id_original" is the empty string; and every document it returns for
    an object with such "id" and "id_original" is of that kind.  When [s]
    holds a lone surrogate, [build_docs] raises UnicodeEncodeError.  The
    stored "id_original" comes from the "id" key only: for an object whose
    "id" counts as true, the document's id encodes str(id) and its
    "id_original" is str(id), whatever the object holds under
    "id_original". *)
Theorem build_docs_id_original_is_empty (obj : pydict) (v : vec) (w : world) :
  (forall s,
     truthy (get obj (lit "id")) = false ->
     get obj (lit "id_original") = JStr s -> s <> [] ->
     (forallb is_scalar s = true ->
      (exists n, chunk_of obj = Ok n) ->
      (exists l, referencias_of obj = Ok l) ->
      exists w' doc,
        build_docs [obj] [v] w = (w', Ok [doc])
        /\ id_encodes doc s
        /\ get doc (lit "id_original") = JStr [])
     /\ (forall w' docs,
           build_docs [obj] [v] w = (w', Ok docs) ->
           exists doc,
             docs = [doc] /\ id_encodes doc s
             /\ get doc (lit "id_original") = JStr [])
     /\ (existsb is_surrogate s = true ->
         build_docs [obj] [v] w = (w, Raise UnicodeEncodeError)))
  /\ (truthy (get obj (lit "id")) = true ->
      forall w' docs,
        build_docs [obj] [v] w = (w', Ok docs) ->
        exists doc,
          docs = [doc]
          /\ id_encodes doc (py_str (get obj (lit "id")))
          /\ get doc (lit "id_original") = JStr (py_str (get obj (lit "id")))).
Proof.
  assert (A : forall w' docs,
             build_docs [obj] [v] w = (w', Ok docs) ->
             exists doc,
               docs = [doc] /\ id_encodes doc (raw_id_of obj)
               /\ get doc (lit "id_original") = JStr (str_field obj (lit "id") [])).
  { intros w' docs. unfold build_docs. cbn [combine map_prog fst snd].
    unfold pbind at 1.
    destruct (build_doc obj v w) as [w1 [doc|e]] eqn:E; [|discriminate].
    unfold pbind, ret. intros [= _ <-].
    destruct (build_doc_ids obj v w w1 doc E) as (sid & E1 & G1 & G2 & _).
    destruct (encode_id_shape _ sid E1) as (bs & k & U & Sh & C & D).
    exists doc. split; [reflexivity|]. split; [|exact G2].
    exists sid, bs, k. auto. }
  split.
  - intros s Hid Hor Hs.
    assert (R : raw_id_of obj = s).
    { unfold raw_id_of, str_field2, py_or. rewrite Hid, Hor.
      destruct s; [congruence | reflexivity]. }
    assert (O : str_field obj (lit "id") [] = []).
    { unfold str_field, py_or. rewrite Hid. reflexivity. }
    rewrite R, O in A.
    split; [|split].
    + intros Sc Hc Hl.
      destruct (encode_id_decode s Sc) as (sid & E1 & _).
      assert (Hb : buildable obj).
      { split; [exists sid; rewrite R; exact E1 | split; assumption]. }
      destruct (build_docs_total [obj] [v] w eq_refl
                  (Forall_cons _ Hb (Forall_nil _))) as (w' & docs & E & _ & _).
      destruct (A w' docs E) as (doc & -> & I & G).
      exists w', doc. auto.
    + exact A.
    + intros Su. apply build_docs_encode_raises. rewrite R.
      apply encode_id_lone_surrogate; exact Su.
  - intros Hid.
    assert (R : raw_id_of obj = py_str (get obj (lit "id"))).
    { unfold raw_id_of, str_field2, py_or. rewrite Hid. reflexivity. }
    assert (O : str_field obj (lit "id") [] = py_str (get obj (lit "id"))).
    { unfold str_field, py_or. rewrite Hid. reflexivity. }
    rewrite R, O in A. exact A.
Qed.

(** C10, counterexample.  Two records, the second with the chunk "um",
    batch size 1, a provider that keeps its contract and an index that
    accepts: int("um") raises ValueError in [build_docs], the run ends
    with that exception after the first batch, and the second record is
    never uploaded. *)
Lemma main_loop_fails_on_unnumbered_record :
  ~ (forall (objs : list pydict) (batch_size : Z),
        exists w',
          main_loop (PB := example_builtins) (SV := example_services 2)
                    2 batch_size objs world0 = (w', Ok tt)
          /\ length (uploaded (trace w')) = length objs).
Proof.
  intros H.
  destruct (H [example_record "docs/AC_2025.pdf#chunk1" "Portaria Conjunta";
               unnumbered_record] 1) as (w' & E & _).
  vm_compute in E. discriminate E.
Qed.

(** C10, amended.  For every list of records and every integer
    [batch_size], with B = max(1, batch_size): the slices objs[0:B],
    objs[B:2B], ..., ceil(len(objs)/B) of them, are not empty, at most B
    long, and concatenate to the list of records itself.  In every run the
    loop ends, and it has sent the provider one request per slice for the
    first slices in order, each with the texts of that slice's records (a
    record's "text", else its "content", else ''), and the index at most
    one upload per requested slice, of documents built from records of
    that slice in order: nothing is embedded or uploaded twice.  A run
    that ends without an exception has gone through all the slices.  In a
    run in which the provider keeps its contract, the index accepts the
    uploads and the builder raises on no record, the loop ends without an
    exception, each slice is embedded once and uploaded once, in order,
    and the documents uploaded are the ones built from the records, one
    each, in input order. *)
Theorem batches_cover_records_once
        (emb_dim batch_size : Z) (objs : list pydict) (w : world) :
  let B := Z.max 1 batch_size in
  let n := Z.to_nat ((len objs + B - 1) / B) in
  let slices :=
    map (fun k => slice objs (Z.of_nat k * B) (Z.of_nat k * B + B)) (seq 0 n) in
  let text_of := fun o : pydict =>
    if truthy (get o (lit "text")) then py_str (get o (lit "text"))
    else if truthy (get o (lit "content")) then py_str (get o (lit "content"))
    else [] in
  (concat slices = objs /\ Forall (fun b => b <> [] /\ len b <= B) slices)
  /\ (exists w' r m docss,
        main_loop emb_dim batch_size objs w = (w', r)
        /\ (length docss <= m <= n)%nat
        /\ embed_requests (trace w')
           = embed_requests (trace w) ++ map (map text_of) (firstn m slices)
        /\ upload_requests (trace w')
           = upload_requests (trace w) ++ map (map upload_action) docss
        /\ Forall2 (fun b docs => Forall2 built_from (firstn (length docs) b) docs)
                   (firstn (length docss) slices) docss
        /\ (r = Ok tt -> m = n /\ length docss = n))
  /\ (provider_in_contract emb_dim -> index_accepts -> Forall buildable objs ->
      exists w' docss,
        main_loop emb_dim batch_size objs w = (w', Ok tt)
        /\ embed_requests (trace w')
           = embed_requests (trace w) ++ map (map text_of) slices
        /\ upload_requests (trace w')
           = upload_requests (trace w) ++ map (map upload_action) docss
        /\ Forall2 (Forall2 built_from) slices docss
        /\ Forall2 built_from objs (concat docss)).
Proof.
  intros B n slices text_of. assert (HB : 0 < B) by (unfold B; lia).
  pose proof (batches_partition objs B HB) as (P1 & P2 & _).
  assert (St : py_range 0 (len objs) B = map (fun k => Z.of_nat k * B) (seq 0 n))
    by (apply py_range_from_zero; exact HB).
  assert (Sl : batches objs B = slices).
  { unfold batches, slices. rewrite St, map_map. reflexivity. }
  rewrite Sl in P1, P2.
  assert (Rq : forall l : list nat,
             map (fun start => map input_text (slice objs start (start + B)))
                 (map (fun k => Z.of_nat k * B) l)
             = map (map text_of)
                   (map (fun k => slice objs (Z.of_nat k * B) (Z.of_nat k * B + B)) l)).
  { intros l. rewrite !map_map. apply map_ext; intros k.
    apply map_ext; intros o. apply input_text_cases. }
  split; [split; assumption|]. split.
  - unfold main_loop. fold B. rewrite St.
    unfold pbind at 1. unfold print at 1. cbv beta iota. unfold pbind at 1.
    match goal with |- context [for_each ?starts ?body ?w1] =>
      destruct (for_each starts body w1) as [w2 r0] eqn:E
    end.
    destruct (for_each_run emb_dim objs B (len objs) _ _ _ _ E)
      as (m & docss & L & T & U & F & K).
    cbn [trace] in T, U.
    rewrite embed_requests_app in T. rewrite upload_requests_app in U.
    simpl in T, U. rewrite app_nil_r in T, U.
    rewrite length_map, length_seq in L, K.
    rewrite <- firstn_map, Rq in T. fold slices in T. rewrite firstn_map in T.
    assert (F' : Forall2 (fun b docs => Forall2 built_from (firstn (length docs) b) docs)
                         (firstn (length docss) slices) docss).
    { unfold slices. rewrite firstn_map. rewrite firstn_map in F.
      apply (Forall2_map_left
               (fun b docs => Forall2 built_from (firstn (length docs) b) docs)
               (fun k => slice objs (Z.of_nat k * B) (Z.of_nat k * B + B))).
      apply Forall2_map_left_inv in F. exact F. }
    destruct r0 as [[]|e].
    + unfold print. eexists; exists (Ok tt), m, docss.
      split; [reflexivity|]. cbn [trace].
      rewrite embed_requests_app, upload_requests_app; simpl.
      rewrite !app_nil_r. auto.
    + exists w2, (Raise e), m, docss. auto 10.
  - intros HP HI Hb. unfold main_loop. fold B. rewrite St.
    unfold pbind at 1. unfold print at 1. cbv beta iota. unfold pbind at 1.
    match goal with |- context [for_each ?starts _ ?w1] =>
      destruct (for_each_ok emb_dim objs B (len objs) starts w1 HP HI)
        as (w2 & docss & E & T & U & F)
    end.
    { apply Forall_forall; intros start _. apply Forall_forall; intros o Ho.
      rewrite Forall_forall in Hb. apply Hb. eapply In_slice; exact Ho. }
    rewrite E. unfold print.
    cbn [trace] in T, U.
    rewrite embed_requests_app in T. rewrite upload_requests_app in U.
    simpl in T, U. rewrite app_nil_r in T, U. rewrite Rq in T. fold slices in T.
    assert (F' : Forall2 (Forall2 built_from) slices docss).
    { unfold slices.
      apply (Forall2_map_left (Forall2 built_from)
               (fun k => slice objs (Z.of_nat k * B) (Z.of_nat k * B + B))).
      apply Forall2_map_left_inv in F. exact F. }
    eexists; exists docss; split; [reflexivity|]. cbn [trace].
    rewrite embed_requests_app, upload_requests_app; simpl.
    rewrite !app_nil_r. repeat split; auto.
    rewrite <- P1 at 1. apply Forall2_concat; exact F'.
Qed.

End IngestClaims.

(* ===================================================================== *)
(** ** Metadata heuristics: the specification's properties *)
(* ===================================================================== *)

(* Use the rule tests known to be false, then reduce. *)
Ltac skip_rules :=
  repeat first
    [ match goal with
      | H : ?c = false |- context [if ?c then _ else _] => rewrite H
      | H : ?c = false |- context [?c || _] => rewrite H
      | H : ?c = false |- context [?c && _] => rewrite H
      | H : ?a || ?b = false |- _ =>
          apply orb_false_iff in H; destruct H
      end
    | progress cbn [orb andb negb app nonempty filter map hd_error] ].

Section MetadataClaims.

Context {PB : Builtins}.

(** C7.  For every text and file name that match no rule of the
    extractors, each extractor returns its default and none raises:
    "Geral" for conhecimento and publico_alvo, the empty string for
    norma_tipo, orgao_emissor, ano_letivo, fase_processo, programa,
    data_publicacao, prazo_inicio and prazo_fim, the empty list for
    referencias_legais. *)
Theorem metadata_defaults (text fname : pystr) :
  no_rule_matches text fname ->
  infer_conhecimento fname = lit "Geral"
  /\ guess_publico_alvo text = lit "Geral"
  /\ guess_norma_tipo text fname = []
  /\ guess_orgao_emissor text = []
  /\ guess_ano_letivo text fname = []
  /\ guess_fase_processo text fname = []
  /\ guess_programa text = []
  /\ guess_data_publicacao text = Ok []
  /\ guess_prazos text = ([], [])
  /\ extract_referencias_legais text = [].
Proof.
  intros (T & Y1 & Y2 & D & P & X & R1 & R2 & R3).
  unfold rule_tests in T; cbv zeta in T; cbn [forallb app] in T.
  repeat (apply andb_prop in T; destruct T as [? T]).
  repeat match goal with
         | H : negb _ = true |- _ => apply negb_true_iff in H
         end.
  clear T.
  repeat split.
  - unfold infer_conhecimento; cbv zeta. skip_rules. reflexivity.
  - unfold guess_publico_alvo; cbv zeta. skip_rules. reflexivity.
  - unfold guess_norma_tipo; cbv zeta. skip_rules. reflexivity.
  - unfold guess_orgao_emissor; cbv zeta. skip_rules. reflexivity.
  - unfold guess_ano_letivo, findall1. rewrite Y1, Y2. reflexivity.
  - unfold guess_fase_processo; cbv zeta. skip_rules. reflexivity.
  - unfold guess_programa; cbv zeta. skip_rules. reflexivity.
  - unfold guess_data_publicacao, re_search. rewrite D, X. reflexivity.
  - unfold guess_prazos, prazos_fallback, re_search, findall3.
    rewrite P, D. reflexivity.
  - unfold extract_referencias_legais; cbv zeta. rewrite R1, R2, R3. reflexivity.
Qed.

(** C8.  For every text and file name whose lower-cased concatenation
    [f"{fname}\n{text}".lower()] contains "portaria conjunta",
    [guess_norma_tipo] returns "Portaria Conjunta", and not "Portaria":
    the more specific rule comes first.  (The function reads the same in
    both versions of the script.) *)
Theorem portaria_conjunta_first (text fname : pystr) :
  contains (lit "portaria conjunta") (str_lower (fname ++ [NL] ++ text)) = true ->
  guess_norma_tipo text fname = lit "Portaria Conjunta"
  /\ guess_norma_tipo text fname <> lit "Portaria".
Proof.
  intros H. unfold guess_norma_tipo; cbv zeta. rewrite H.
  split; [reflexivity | vm_compute; discriminate].
Qed.

End MetadataClaims.

(* ===================================================================== *)
(** ** The properties at concrete inputs *)
(* ===================================================================== *)

Example norma_tipo_conjunta :
  guess_norma_tipo (PB := example_builtins)
                   (lit "PORTARIA CONJUNTA SUCOR/SUPED") (lit "AC_2025.pdf")
  = lit "Portaria Conjunta".
Proof. reflexivity. Qed.

Example norma_tipo_portaria :
  guess_norma_tipo (PB := example_builtins) (lit "texto") (lit "AC_2025_Portaria_45.pdf")
  = lit "Portaria".
Proof. reflexivity. Qed.

Example conhecimento_prefix :
  infer_conhecimento (PB := example_builtins) (lit "AC_2025_Portaria_45.pdf")
  = lit "Atribuição de Classes (AC)".
Proof. reflexivity. Qed.

Example publico_alvo_sorted :
  guess_publico_alvo (PB := example_builtins)
                     (lit "professor, diretor e candidato")
  = lit "Candidatos/Contratados, Docentes, Gestores".
Proof. reflexivity. Qed.

Example batches_of_five :
  batches [1; 2; 3; 4; 5] (Z.max 1 2) = [[1; 2]; [3; 4]; [5]]
  /\ batches [1; 2; 3] (Z.max 1 0) = [[1]; [2]; [3]]
  /\ batches [1; 2; 3] (Z.max 1 (-4)) = [[1]; [2]; [3]].
Proof. repeat split. Qed.

Lemma example_provider_in_contract (dim : nat) :
  provider_in_contract (SV := example_services dim) (Z.of_nat dim).
Proof.
  intros k inputs. eexists; split; [reflexivity|]. split.
  - apply length_map.
  - apply Forall_forall; intros v Hv. apply in_map_iff in Hv.
    destruct Hv as (_ & <- & _). unfold len. rewrite repeat_length. reflexivity.
Qed.

Lemma sample_records_buildable :
  Forall (buildable (PB := example_builtins)) sample_records.
Proof.
  repeat constructor; eexists; reflexivity.
Qed.

Lemma dimension_mismatch_aborts_batch_witness :
  let inputs := map (input_text (PB := example_builtins))
                    (slice sample_records 0 (0 + 16)) in
  exists w',
    process_batch (PB := example_builtins) (SV := example_services 1536)
                  3072 sample_records 16 3 0 world0 = (w', Raise DIM_ERROR)
    /\ for_each [0] (process_batch (PB := example_builtins)
                                   (SV := example_services 1536)
                                   3072 sample_records 16 3) world0
       = (w', Raise DIM_ERROR)
    /\ trace w' = trace world0 ++ [EvEmbed inputs]
    /\ filter is_upload (trace w') = filter is_upload (trace world0)
    /\ upload_calls w' = upload_calls world0
    /\ clock_reads w' = clock_reads world0.
Proof.
  apply (dimension_mismatch_aborts_batch
           (PB := example_builtins) (SV := example_services 1536)
           3072 sample_records 16 3 0 [] world0
           (map (fun _ => repeat (JInt 0) 1536)
                (map (input_text (PB := example_builtins)) sample_records))).
  - reflexivity.
  - exists (repeat (JInt 0) 1536). split; [left; reflexivity|].
    vm_compute. discriminate.
Defined.

Lemma metadata_defaults_witness :
  no_rule_matches (PB := example_builtins) (lit "xyz") (lit "nota.txt")
  /\ infer_conhecimento (PB := example_builtins) (lit "nota.txt") = lit "Geral"
  /\ guess_publico_alvo (PB := example_builtins) (lit "xyz") = lit "Geral"
  /\ guess_data_publicacao (PB := example_builtins) (lit "xyz") = Ok []
  /\ extract_referencias_legais (PB := example_builtins) (lit "xyz") = [].
Proof.
  assert (H : no_rule_matches (PB := example_builtins) (lit "xyz") (lit "nota.txt"))
    by (repeat split; reflexivity).
  split; [exact H|].
  pose proof (metadata_defaults (PB := example_builtins)
                (lit "xyz") (lit "nota.txt") H) as D.
  repeat split; apply D.
Defined.

Lemma portaria_conjunta_first_witness :
  contains (lit "portaria conjunta")
           (str_lower (Builtins := example_builtins)
              (lit "AC_2025.pdf" ++ [NL] ++ lit "PORTARIA CONJUNTA SUCOR/SUPED"))
  = true
  /\ guess_norma_tipo (PB := example_builtins)
       (lit "PORTARIA CONJUNTA SUCOR/SUPED") (lit "AC_2025.pdf")
     = lit "Portaria Conjunta".
Proof.
  split; [reflexivity|].
  apply (portaria_conjunta_first (PB := example_builtins)
           (lit "PORTARIA CONJUNTA SUCOR/SUPED") (lit "AC_2025.pdf")).
  reflexivity.
Defined.

Lemma build_docs_id_original_is_empty_witness :
  let obj := example_record "docs/AC_2025.pdf#chunk1" "Portaria Conjunta" in
  exists w' doc,
    build_docs (PB := example_builtins) (SV := example_services 2)
               [obj] [[JInt 0; JInt 0]] world0 = (w', Ok [doc])
    /\ id_encodes doc (lit "docs/AC_2025.pdf#chunk1")
    /\ get doc (lit "id_original") = JStr [].
Proof.
  intros obj.
  destruct (build_docs_id_original_is_empty
              (PB := example_builtins) (SV := example_services 2)
              obj [JInt 0; JInt 0] world0) as (A & _).
  destruct (A (lit "docs/AC_2025.pdf#chunk1") eq_refl eq_refl
              ltac:(vm_compute; discriminate)) as (A1 & _).
  apply A1; [reflexivity | eexists; reflexivity | eexists; reflexivity].
Defined.

Lemma batches_cover_records_once_witness :
  exists w' docss,
    main_loop (PB := example_builtins) (SV := example_services 2)
              2 2 sample_records world0 = (w', Ok tt)
    /\ embed_requests (trace w')
       = [[lit "Portaria Conjunta"; lit "de 01/03 a 15/03/2025"]; [lit "xyz"]]
    /\ upload_requests (trace w') = map (map upload_action) docss
    /\ Forall2 (Forall2 (built_from (PB := example_builtins)
                                    (SV := example_services 2)))
               [[example_record "docs/AC_2025.pdf#chunk1" "Portaria Conjunta";
                 example_record "docs/AC_2025.pdf#chunk2" "de 01/03 a 15/03/2025"];
                [example_record "docs/AD_2025.pdf#chunk1" "xyz"]]
               docss
    /\ Forall2 (built_from (PB := example_builtins) (SV := example_services 2))
               sample_records (concat docss).
Proof.
  destruct (batches_cover_records_once
              (PB := example_builtins) (SV := example_services 2)
              2 2 sample_records world0) as (_ & _ & H).
  exact (H (example_provider_in_contract 2) (fun k payload => eq_refl)
           sample_records_buildable).
Defined.

Example main_loop_sample_run :
  let run := main_loop (PB := example_builtins) (SV := example_services 2)
                       2 2 sample_records world0 in
  snd run = Ok tt
  /\ embed_requests (trace (fst run))
     = [[lit "Portaria Conjunta"; lit "de 01/03 a 15/03/2025"]; [lit "xyz"]]
  /\ embedded (trace (fst run)) = [lit "Portaria Conjunta";
                                   lit "de 01/03 a 15/03/2025"; lit "xyz"]
  /\ map (fun d => get d (lit "id")) (uploaded (trace (fst run)))
     = [JStr (lit "ZG9jcy9BQ18yMDI1LnBkZiNjaHVuazE");
        JStr (lit "ZG9jcy9BQ18yMDI1LnBkZiNjaHVuazI");
        JStr (lit "ZG9jcy9BRF8yMDI1LnBkZiNjaHVuazE")]
  /\ map (fun d => get d (lit "id_original")) (uploaded (trace (fst run)))
     = [JStr []; JStr []; JStr []]
  /\ embed_calls (fst run) = 2%nat /\ upload_calls (fst run) = 2%nat.
Proof. vm_compute. repeat split. Qed.
